(** * Wallet session manager of the wagmi/Angular starter kit

    A shallow embedding of [src/app/services/wallet.service.ts] (the later
    draft, with persistence and reconnect) and of the wallet-address display
    pipe, followed by the properties of the specification that they decide. *)

From Stdlib Require Import String List ZArith Bool Lia.
Import ListNotations.
Open Scope string_scope.

(** ** JavaScript values

    [JSON.parse] produces, and the provider hands over, untyped values
    ([any]); the service applies [?.], [||], [!!] and [===] to them.  Numbers
    are the integers (chain identifiers); [NaN] and fractions do not occur. *)
Module Js.

#[local] Set Warnings "-register-all".

Inductive JsVal : Type :=
| JUndefined
| JNull
| JBool (b : bool)
| JNum (n : Z)
| JStr (s : string)
| JArr (items : list JsVal)
| JObj (fields : list (string * JsVal)).

(** ToBoolean: [undefined], [null], [false], [0] and the empty string are
    falsy, every object and array is truthy. *)
Definition truthy (v : JsVal) : bool :=
  match v with
  | JUndefined | JNull => false
  | JBool b => b
  | JNum n => negb (n =? 0)%Z
  | JStr s => negb (s =? "")
  | JArr _ | JObj _ => true
  end.

(** [a || b] *)
Definition or_ (a b : JsVal) : JsVal := if truthy a then a else b.

Fixpoint lookup (k : string) (fields : list (string * JsVal)) : JsVal :=
  match fields with
  | [] => JUndefined
  | (k', v) :: rest => if k' =? k then v else lookup k rest
  end.

(** [v?.k] for the property names the service reads ([name], [message],
    [chain], [id], [isConnected], [account], [chainId]): own properties of an
    object, [undefined] on [null]/[undefined] and on primitives and arrays,
    which carry none of these names. *)
Definition opt_prop (v : JsVal) (k : string) : JsVal :=
  match v with
  | JObj fields => lookup k fields
  | _ => JUndefined
  end.

(** [v === 'text'] *)
Definition strict_eq_str (v : JsVal) (text : string) : bool :=
  match v with
  | JStr s => s =? text
  | _ => false
  end.

(** [xs[0]] on an array of strings: [undefined] when out of range. *)
Definition index0 (xs : list string) : JsVal :=
  match xs with
  | [] => JUndefined
  | x :: _ => JStr x
  end.

(** What [JSON.parse (JSON.stringify v)] gives back: a property whose value
    is [undefined] is left out of an object, and [undefined] inside an array
    is written as [null]. *)
Fixpoint json_image (v : JsVal) : JsVal :=
  match v with
  | JObj fields =>
      JObj ((fix go (l : list (string * JsVal)) : list (string * JsVal) :=
               match l with
               | [] => []
               | (k, JUndefined) :: rest => go rest
               | (k, x) :: rest => (k, json_image x) :: go rest
               end) fields)
  | JArr items =>
      JArr (map (fun x => match x with
                          | JUndefined => JNull
                          | _ => json_image x
                          end) items)
  | _ => v
  end.

(** [String.prototype.slice (b, e)]: a negative index counts from the end,
    both are clamped to the string, an empty range gives the empty string.
    A string is the sequence of its code units; [String.length] counts them. *)
Definition clamp_index (len i : Z) : Z :=
  if (i <? 0)%Z then Z.max (len + i) 0 else Z.min i len.

Definition slice (s : string) (b e : Z) : string :=
  let len := Z.of_nat (String.length s) in
  let from := clamp_index len b in
  let to := clamp_index len e in
  substring (Z.to_nat from) (Z.to_nat (to - from)) s.

(** [s.slice (b)] *)
Definition slice_from (s : string) (b : Z) : string :=
  slice s b (Z.of_nat (String.length s)).

End Js.

(** ** The wallet-address display pipe ([WalletAddressFormatPipe]) *)
Module WalletAddressFormatPipe.
Import Js.

Definition transform (value : string) : string :=
  if (value =? "") || (String.length value <? 10)%nat then value
  else
    let firstSix := slice value 0 6 in
    let lastFour := slice_from value (-4) in
    firstSix ++ "..." ++ lastFour.

End WalletAddressFormatPipe.

(** ** The wallet service ([WalletService])

    The service is a bundle of four [BehaviorSubject]s, one [localStorage]
    cell and calls to the provider, the toast sink and the console.  Each
    method is a state transformer; a method that waits on a promise is cut at
    the wait into the part that runs at the call and one handler per way the
    promise settles.  What [getAccount (wagmiConfig)] answers and how a
    promise settles are inputs. *)
Module WalletService.
Import Js.

(** A value that a promise rejected with, and whether [instanceof Error]
    holds of it. *)
Record Thrown : Type := {
  thrown_value : JsVal;
  instanceof_Error : bool
}.

(** What [errorSubject] carries besides [null]. *)
Inductive ErrorValue : Type :=
| the_error (error : Thrown)
| new_Error (errorMessage : JsVal).

Inductive ConnectorType : Type :=
| type_injected
| type_coinbase
| type_walletConnect.

Inductive Connector : Type :=
| injected
| coinbaseWallet (appName : string)
| walletConnect (projectId : string) (showQrModal : bool).

Inductive ProviderCall : Type :=
| connect (connector : Connector)
| disconnect
| reconnect (connectors : list Connector)
| switchChain (chainId : Z)
| watchAccount
| watchChainId.

(** The text under [LOCAL_STORAGE_KEY]: either a JSON text, known by the
    value [JSON.parse] reads from it, or some other text, on which
    [JSON.parse] throws. *)
Inductive StoredText : Type :=
| JsonText (value : JsVal)
| OtherText (text : string).

Definition JSON_parse (savedState : StoredText) : option JsVal :=
  match savedState with
  | JsonText value => Some value
  | OtherText _ => None
  end.

Definition JSON_stringify (state : JsVal) : StoredText :=
  JsonText (json_image state).

(** A string is truthy unless empty; a JSON text is never empty. *)
Definition text_truthy (savedState : StoredText) : bool :=
  match savedState with
  | JsonText _ => true
  | OtherText text => negb (text =? "")
  end.

(** Everything the service does that can be seen from outside, in the order
    it is done. *)
Inductive Effect : Type :=
| account_next (account : JsVal)
| chainId_next (chainId : JsVal)
| loading_next (loading : bool)
| error_next (error : option ErrorValue)
| toastr_error (message : JsVal) (title : string)
| console_log (label : string)
| console_error (label : string)
| localStorage_setItem (text : StoredText)
| localStorage_removeItem
| provider (call : ProviderCall).

Record State : Type := {
  accountSubject : JsVal;            (* [undefined] is [JUndefined] *)
  chainIdSubject : JsVal;            (* [number | null] *)
  loadingSubject : bool;
  errorSubject : option ErrorValue;  (* [null] is [None] *)
  localStorage : option StoredText;  (* [getItem] of the one key *)
  trace : list Effect                (* most recent first *)
}.

Definition Action : Type := State -> State.

Definition andThen (f g : Action) : Action := fun s => g (f s).
Notation "f ;; g" := (andThen f g) (at level 61, left associativity).

Definition emit (e : Effect) : Action := fun s =>
  {| accountSubject := accountSubject s;
     chainIdSubject := chainIdSubject s;
     loadingSubject := loadingSubject s;
     errorSubject := errorSubject s;
     localStorage := localStorage s;
     trace := e :: trace s |}.

Definition accountSubject_next (account : JsVal) : Action := fun s =>
  {| accountSubject := account;
     chainIdSubject := chainIdSubject s;
     loadingSubject := loadingSubject s;
     errorSubject := errorSubject s;
     localStorage := localStorage s;
     trace := account_next account :: trace s |}.

Definition chainIdSubject_next (chainId : JsVal) : Action := fun s =>
  {| accountSubject := accountSubject s;
     chainIdSubject := chainId;
     loadingSubject := loadingSubject s;
     errorSubject := errorSubject s;
     localStorage := localStorage s;
     trace := chainId_next chainId :: trace s |}.

Definition loadingSubject_next (loading : bool) : Action := fun s =>
  {| accountSubject := accountSubject s;
     chainIdSubject := chainIdSubject s;
     loadingSubject := loading;
     errorSubject := errorSubject s;
     localStorage := localStorage s;
     trace := loading_next loading :: trace s |}.

Definition errorSubject_next (error : option ErrorValue) : Action := fun s =>
  {| accountSubject := accountSubject s;
     chainIdSubject := chainIdSubject s;
     loadingSubject := loadingSubject s;
     errorSubject := error;
     localStorage := localStorage s;
     trace := error_next error :: trace s |}.

Definition setItem (text : StoredText) : Action := fun s =>
  {| accountSubject := accountSubject s;
     chainIdSubject := chainIdSubject s;
     loadingSubject := loadingSubject s;
     errorSubject := errorSubject s;
     localStorage := Some text;
     trace := localStorage_setItem text :: trace s |}.

Definition removeItem : Action := fun s =>
  {| accountSubject := accountSubject s;
     chainIdSubject := chainIdSubject s;
     loadingSubject := loadingSubject s;
     errorSubject := errorSubject s;
     localStorage := None;
     trace := localStorage_removeItem :: trace s |}.

(** *** Provider answers *)

(** What [connect] resolves with: [{accounts: readonly [Address, ...], chainId}]. *)
Record ConnectResult : Type := {
  accounts : list string;
  chainId : Z
}.

(** What [reconnect] resolves with, read as [any]: the properties it has.
    It is an object or an array, never [null] or [undefined]. *)
Definition ReconnectResult : Type := list (string * JsVal).

(** How the promise of [switchChain] settles. *)
Inductive Settled : Type :=
| resolved (result : JsVal)
| rejected (error : Thrown).

(** [holesky.id] of [@wagmi/core/chains] (17000, as [config/chains.ts] notes). *)
Definition holesky_id : Z := 17000.

(** *** Methods *)

Definition errorMessage_of (error : Thrown) : JsVal :=
  let errorMessage := JStr "An unknown error occurred. Please try again." in
  if strict_eq_str (opt_prop (thrown_value error) "name") "UserRejectedRequestError"
  then JStr "You rejected the wallet connection request."
  else if truthy (opt_prop (thrown_value error) "message")
       then opt_prop (thrown_value error) "message"
       else errorMessage.

Definition handleConnectionError (error : Thrown) : Action :=
  let errorMessage := errorMessage_of error in
  errorSubject_next
    (Some (if instanceof_Error error then the_error error else new_Error errorMessage)) ;;
  emit (toastr_error errorMessage "Connection Failed").

Definition saveConnectionState (address chainId isConnected : JsVal) : Action :=
  let state := JObj [("address", address); ("chainId", chainId); ("isConnected", isConnected)] in
  setItem (JSON_stringify state).

Definition clearConnectionState : Action := removeItem.

Definition supported_connectors : list Connector :=
  [injected; coinbaseWallet "BX Dex";
   walletConnect "5c2ca0dd3003fb371acdb8442a626a0c" true].

(** [reconnectWallet], up to its [await]. *)
Definition reconnectWallet : Action :=
  loadingSubject_next true ;;
  errorSubject_next None ;;
  emit (provider (reconnect supported_connectors)).

(** [reconnectWallet] from the [await] on, when [reconnect] resolved. *)
Definition reconnectWallet_resolved (result : ReconnectResult) : Action :=
  emit (console_log "Reconnected wallet:") ;;
  saveConnectionState (lookup "account" result) (lookup "chainId" result)
                      (or_ (lookup "isConnected" result) (JBool false)) ;;
  loadingSubject_next false.

(** [reconnectWallet] from the [await] on, when [reconnect] rejected. *)
Definition reconnectWallet_rejected (error : Thrown) : Action :=
  emit (console_error "Failed to reconnect wallet:") ;;
  handleConnectionError error ;;
  loadingSubject_next false.

(** [live] is what [getAccount (wagmiConfig)] answers at this moment. *)
Definition updateAccount (live : JsVal) : Action := fun s =>
  match localStorage s with
  | Some savedState =>
      if text_truthy savedState then
        let s1 := reconnectWallet s in
        match JSON_parse savedState with
        | Some data => (emit (console_log "loadData") ;; accountSubject_next data) s1
        | None => emit (console_error "Failed to parse wallet connection state:") s1
        end
      else accountSubject_next live s
  | None => accountSubject_next live s
  end.

Definition updateChainId (live : JsVal) : Action :=
  let chainId := or_ (opt_prop (opt_prop live "chain") "id") JNull in
  chainIdSubject_next chainId.

Definition startWatchingAccount : Action := emit (provider watchAccount).
Definition startWatchingChainId : Action := emit (provider watchChainId).

(** The [onChange] callbacks of the two watchers. *)
Definition watchAccount_onChange (account : JsVal) : Action :=
  emit (console_log "Account changed:") ;;
  accountSubject_next (or_ account JUndefined).

Definition watchChainId_onChange (chainId : JsVal) : Action :=
  emit (console_log "Chain ID changed:") ;;
  chainIdSubject_next (or_ chainId JNull).

(** [getAccount] is asked once in [updateAccount] and once in
    [updateChainId]. *)
Definition initialize (live_account live_chain : JsVal) : Action :=
  updateAccount live_account ;;
  updateChainId live_chain ;;
  startWatchingAccount ;;
  startWatchingChainId.

Definition isConnected (live : JsVal) : bool :=
  truthy (opt_prop live "isConnected").

Definition connector_of (connectorType : ConnectorType) : Connector :=
  match connectorType with
  | type_injected => injected
  | type_coinbase => coinbaseWallet "BX Dex"
  | type_walletConnect => walletConnect "5c2ca0dd3003fb371acdb8442a626a0c" true
  end.

(** [connectWallet], up to the subscription to the promise. *)
Definition connectWallet (connectorType : ConnectorType) : Action :=
  loadingSubject_next true ;;
  errorSubject_next None ;;
  emit (provider (connect (connector_of connectorType))).

(** The [next] handler of [connectWallet]. *)
Definition connectWallet_next (result : ConnectResult) (live : JsVal) : Action :=
  emit (console_log "Wallet connected:") ;;
  updateAccount live ;;
  saveConnectionState (index0 (accounts result)) (JNum (chainId result))
                      (or_ (JBool true) JNull) ;;
  loadingSubject_next false.

(** The [error] handler of [connectWallet]. *)
Definition connectWallet_error (error : Thrown) : Action :=
  emit (console_error "Failed to connect wallet:") ;;
  handleConnectionError error ;;
  loadingSubject_next false.

(** [disconnectWallet], up to the subscription to the promise. *)
Definition disconnectWallet : Action :=
  loadingSubject_next true ;;
  errorSubject_next None ;;
  emit (console_log "wagmi config") ;;
  emit (provider disconnect).

(** The [next] handler of [disconnectWallet]. *)
Definition disconnectWallet_next : Action :=
  emit (console_log "Wallet disconnected") ;;
  accountSubject_next JUndefined ;;
  chainIdSubject_next JNull ;;
  clearConnectionState ;;
  loadingSubject_next false.

(** The [error] handler of [disconnectWallet]. *)
Definition disconnectWallet_error (error : Thrown) : Action :=
  emit (console_error "Failed to disconnect wallet:") ;;
  handleConnectionError error ;;
  loadingSubject_next false.

(** [switchNetwork], up to its [await]. *)
Definition switchNetwork_call : Action :=
  emit (provider (switchChain holesky_id)).

(** [switchNetwork] from the [await] on, with the value it returns. *)
Definition switchNetwork_settled (outcome : Settled) (s : State) : State * bool :=
  match outcome with
  | resolved _ => (emit (console_log "Switched to:") s, true)
  | rejected error => (handleConnectionError error s, false)
  end.

Definition switchNetwork (outcome : Settled) (s : State) : State * bool :=
  switchNetwork_settled outcome (switchNetwork_call s).

(** *** The service as a transition system *)

(** The service when its constructor starts: the subjects hold their initial
    values and [saved] is what an earlier page load left in the store. *)
Definition fresh (saved : option StoredText) : State :=
  {| accountSubject := JUndefined;
     chainIdSubject := JNull;
     loadingSubject := false;
     errorSubject := None;
     localStorage := saved;
     trace := [] |}.

Definition construct (saved : option StoredText) (live_account live_chain : JsVal) : State :=
  initialize live_account live_chain (fresh saved).

(** What can happen to a constructed service: a method is called, a promise
    settles, a watcher fires. *)
Inductive Event : Type :=
| call_connectWallet (connectorType : ConnectorType)
| connect_resolved (result : ConnectResult) (live : JsVal)
| connect_rejected (error : Thrown)
| call_disconnectWallet
| disconnect_resolved
| disconnect_rejected (error : Thrown)
| call_reconnectWallet
| reconnect_resolved (result : ReconnectResult)
| reconnect_rejected (error : Thrown)
| call_switchNetwork
| switchChain_settled (outcome : Settled)
| account_changed (account : JsVal)
| chainId_changed (chainId : JsVal).

Definition step (ev : Event) : Action :=
  match ev with
  | call_connectWallet connectorType => connectWallet connectorType
  | connect_resolved result live => connectWallet_next result live
  | connect_rejected error => connectWallet_error error
  | call_disconnectWallet => disconnectWallet
  | disconnect_resolved => disconnectWallet_next
  | disconnect_rejected error => disconnectWallet_error error
  | call_reconnectWallet => reconnectWallet
  | reconnect_resolved result => reconnectWallet_resolved result
  | reconnect_rejected error => reconnectWallet_rejected error
  | call_switchNetwork => switchNetwork_call
  | switchChain_settled outcome => fun s => fst (switchNetwork_settled outcome s)
  | account_changed account => watchAccount_onChange account
  | chainId_changed chainId => watchChainId_onChange chainId
  end.

Definition run (events : list Event) (s : State) : State :=
  fold_left (fun s ev => step ev s) events s.

(** Whether [updateAccount] finds a saved session: [getItem] answered a
    string, and not the empty one. *)
Definition has_savedState (s : State) : bool :=
  match localStorage s with
  | Some savedState => text_truthy savedState
  | None => false
  end.

(** The events whose handlers call [chainIdSubject.next]. *)
Definition writes_chainId (ev : Event) : bool :=
  match ev with
  | disconnect_resolved | chainId_changed _ => true
  | _ => false
  end.

(** The events whose handlers call [setItem] or [removeItem]. *)
Definition writes_store (ev : Event) : bool :=
  match ev with
  | connect_resolved _ _ | reconnect_resolved _ | disconnect_resolved => true
  | _ => false
  end.

(** The toasts among the effects. *)
Definition toasts (effects : list Effect) : list (JsVal * string) :=
  flat_map (fun e => match e with
                     | toastr_error message title => [(message, title)]
                     | _ => []
                     end) effects.

End WalletService.

(** ** Provider answers, rejections and stored records used as test data *)
Module Scenario.
Import Js WalletService.

Definition holder : string := "0x52908400098527886E0F7030069857D2E4169EE7".
Definition other_holder : string := "0xde709f2102306220921060314715629080e2fb77".

(** [getAccount] while a wallet is connected on Holesky. *)
Definition live_connected : JsVal :=
  JObj [("address", JStr holder);
        ("addresses", JArr [JStr holder]);
        ("chain", JObj [("id", JNum 17000); ("name", JStr "Holesky")]);
        ("chainId", JNum 17000);
        ("isConnected", JBool true);
        ("status", JStr "connected")].

(** [getAccount] while no wallet is connected. *)
Definition live_disconnected : JsVal :=
  JObj [("address", JUndefined);
        ("addresses", JUndefined);
        ("chain", JUndefined);
        ("chainId", JUndefined);
        ("isConnected", JBool false);
        ("status", JStr "disconnected")].

(** [getAccount] once [other_holder] is connected on Holesky. *)
Definition live_other : JsVal :=
  JObj [("address", JStr other_holder);
        ("addresses", JArr [JStr other_holder]);
        ("chain", JObj [("id", JNum 17000); ("name", JStr "Holesky")]);
        ("chainId", JNum 17000);
        ("isConnected", JBool true);
        ("status", JStr "connected")].

Definition connected_holder : ConnectResult :=
  {| accounts := [holder]; chainId := 17000 |}.

Definition connected_other : ConnectResult :=
  {| accounts := [other_holder]; chainId := 17000 |}.

(** The record of the restore scenario. *)
Definition restored_record : JsVal :=
  JObj [("address", JStr "0xAB...1234");
        ("chainId", JNum 17000);
        ("isConnected", JBool true)].

(** A stored text that is not JSON. *)
Definition broken_text : StoredText := OtherText "{address:".

(** [reconnect] resolving with an empty array of connections, which has no
    [account], [chainId] or [isConnected] property. *)
Definition no_connections : ReconnectResult := [].

(** [reconnect] resolving with a record that reports no connection. *)
Definition not_reconnected : ReconnectResult :=
  [("account", JUndefined); ("chainId", JNum 17000); ("isConnected", JBool false)].

Definition user_rejected : Thrown :=
  {| thrown_value := JObj [("name", JStr "UserRejectedRequestError");
                           ("message", JStr "User rejected the request.")];
     instanceof_Error := true |}.

Definition chain_not_configured : Thrown :=
  {| thrown_value := JObj [("name", JStr "ChainNotConfiguredError");
                           ("message", JStr "Chain not configured.")];
     instanceof_Error := true |}.

(** [new Error ()]: an [Error] whose message is the empty string. *)
Definition empty_message_error : Thrown :=
  {| thrown_value := JObj [("name", JStr "Error"); ("message", JStr "")];
     instanceof_Error := true |}.

(** A rejection with a bare string, which has neither name nor message. *)
Definition thrown_string : Thrown :=
  {| thrown_value := JStr "timeout"; instanceof_Error := false |}.

End Scenario.

(** ** What the specification asks of the session, in its words *)
Module Spec.
Import Js WalletService.

(** The account channel holds a connected account. *)
Definition connected (account : JsVal) : bool :=
  truthy (opt_prop account "isConnected").

(** "whenever account is set to a connected value, chainId is updated to
    account.chainId; whenever account becomes absent, chainId becomes
    absent." *)
Definition channels_consistent (s : State) : Prop :=
  (connected (accountSubject s) = true ->
   chainIdSubject s = opt_prop (accountSubject s) "chainId") /\
  (accountSubject s = JUndefined -> chainIdSubject s = JNull).

(** "no operation ever writes a record with isConnected false." *)
Definition record_says_connected (store : option StoredText) : Prop :=
  forall record, store = Some (JsonText record) ->
                 opt_prop record "isConnected" = JBool true.

End Spec.

(** ** Runs of the wallet service: kinds of events *)
Module WalletRuns.
Import Js WalletService.

(** A promise of [connect], [disconnect], [reconnect] or [switchChain]
    rejected. *)
Definition is_rejection (ev : Event) : bool :=
  match ev with
  | connect_rejected _ | disconnect_rejected _ | reconnect_rejected _
  | switchChain_settled (rejected _) => true
  | _ => false
  end.

(** A promise of [connect], [disconnect] or [reconnect] settled. *)
Definition is_settlement (ev : Event) : bool :=
  match ev with
  | connect_resolved _ _ | connect_rejected _
  | disconnect_resolved | disconnect_rejected _
  | reconnect_resolved _ | reconnect_rejected _ => true
  | _ => false
  end.

(** [connectWallet], [disconnectWallet] or [reconnectWallet] was called. *)
Definition is_gated_call (ev : Event) : bool :=
  match ev with
  | call_connectWallet _ | call_disconnectWallet | call_reconnectWallet => true
  | _ => false
  end.

(** The error of a rejection. *)
Definition rejection_error (ev : Event) : option Thrown :=
  match ev with
  | connect_rejected error | disconnect_rejected error | reconnect_rejected error
  | switchChain_settled (rejected error) => Some error
  | _ => None
  end.

(** The toast that an event brings up, if any. *)
Definition toast_of (ev : Event) : list (JsVal * string) :=
  match rejection_error ev with
  | Some error => [(errorMessage_of error, "Connection Failed")]
  | None => []
  end.

(** The events whose handlers may call [accountSubject.next]. *)
Definition writes_account (ev : Event) : bool :=
  match ev with
  | connect_resolved _ _ | disconnect_resolved | account_changed _ => true
  | _ => false
  end.

(** The record [saveConnectionState] builds at a resolved reconnect. *)
Definition reconnect_record (result : ReconnectResult) : JsVal :=
  JObj [("address", lookup "account" result);
        ("chainId", lookup "chainId" result);
        ("isConnected", or_ (lookup "isConnected" result) (JBool false))].

(** Every event but a resolved disconnect. *)
Definition keeps_session (ev : Event) : bool :=
  match ev with
  | disconnect_resolved => false
  | _ => true
  end.

(** A value the chain subject may hold: [null] or a truthy value. *)
Definition null_or_truthy (v : JsVal) : Prop :=
  v = JNull \/ truthy v = true.

(** A value of the declared type of the error subject, [Error | null]: a
    rejected value is on it only if it is an [Error]. *)
Definition is_Error_or_null (error : option ErrorValue) : Prop :=
  match error with
  | Some (the_error thrown) => instanceof_Error thrown = true
  | Some (new_Error _) | None => True
  end.

Definition all_connectorTypes : list ConnectorType :=
  [type_injected; type_coinbase; type_walletConnect].

(** The record [saveConnectionState] builds at a resolved connect. *)
Definition connect_record (result : ConnectResult) : JsVal :=
  JObj [("address", index0 (accounts result));
        ("chainId", JNum (chainId result));
        ("isConnected", JBool true)].

End WalletRuns.

(** ** The first draft of the wallet service

    The earlier [WalletService] of [wallet.service.ts]: no stored session
    and no reconnect.  Only the methods that differ from the later draft are
    written out; [handleConnectionError], [switchNetwork], the watchers and
    [connectWallet] up to its subscription are the same text. *)
Module WalletServiceDraft1.
Import Js WalletService.

Definition updateAccount (live : JsVal) : Action :=
  accountSubject_next live.

Definition initialize (live_account live_chain : JsVal) : Action :=
  updateAccount live_account ;;
  updateChainId live_chain ;;
  startWatchingAccount ;;
  startWatchingChainId.

Definition construct (saved : option StoredText) (live_account live_chain : JsVal) : State :=
  initialize live_account live_chain (fresh saved).

(** The [next] handler of [connectWallet]. *)
Definition connectWallet_next (live : JsVal) : Action :=
  emit (console_log "Wallet connected:") ;;
  updateAccount live ;;
  loadingSubject_next false.

(** [disconnectWallet], up to the subscription to the promise. *)
Definition disconnectWallet : Action :=
  loadingSubject_next true ;;
  errorSubject_next None ;;
  emit (provider disconnect).

(** The [next] handler of [disconnectWallet]. *)
Definition disconnectWallet_next : Action :=
  emit (console_log "Wallet disconnected") ;;
  accountSubject_next JUndefined ;;
  chainIdSubject_next JNull ;;
  loadingSubject_next false.

(** The events of the later draft that the first draft has too, handled as
    the first draft does; it has no [reconnectWallet]. *)
Definition step (ev : Event) : option Action :=
  match ev with
  | call_connectWallet connectorType => Some (connectWallet connectorType)
  | connect_resolved _ live => Some (connectWallet_next live)
  | connect_rejected error => Some (connectWallet_error error)
  | call_disconnectWallet => Some disconnectWallet
  | disconnect_resolved => Some disconnectWallet_next
  | disconnect_rejected error => Some (disconnectWallet_error error)
  | call_reconnectWallet | reconnect_resolved _ | reconnect_rejected _ => None
  | call_switchNetwork => Some switchNetwork_call
  | switchChain_settled outcome => Some (fun s => fst (switchNetwork_settled outcome s))
  | account_changed account => Some (watchAccount_onChange account)
  | chainId_changed chainId => Some (watchChainId_onChange chainId)
  end.

(** A run of the first draft; an event it does not have is passed over. *)
Definition run (events : list Event) (s : State) : State :=
  fold_left (fun s ev => match step ev with Some f => f s | None => s end) events s.

(** The events of a run in which the later draft has not stored a session
    yet: no resolved connect and nothing of [reconnectWallet]. *)
Definition before_first_session (ev : Event) : bool :=
  match ev with
  | connect_resolved _ _
  | call_reconnectWallet | reconnect_resolved _ | reconnect_rejected _ => false
  | _ => true
  end.

(** The four channels of a state. *)
Definition channels (s : State) : JsVal * JsVal * bool * option ErrorValue :=
  (accountSubject s, chainIdSubject s, loadingSubject s, errorSubject s).

End WalletServiceDraft1.

(** ** The modal service ([ModalService])

    [document.querySelector] answers with the element found, if any; the
    [Modal] of flowbite is known by the order in which it was constructed,
    the element it was given and its options. *)
Module ModalService.
Import Js.

Definition ModalOptions : Type := list (string * JsVal).

Record ModalInterface : Type := {
  serial : nat;
  element : string;
  modalOptions : ModalOptions
}.

Inductive Effect : Type :=
| new_Modal (modal : ModalInterface)
| show (serial : nat)
| hide (serial : nat)
| isOpen_next (isOpen : bool).

Record State : Type := {
  modalInstance : option ModalInterface;  (* [null] is [None] *)
  isOpenSubject : bool;
  constructed : nat;                      (* modals constructed so far *)
  trace : list Effect                     (* most recent first *)
}.

Definition initial : State :=
  {| modalInstance := None; isOpenSubject := false; constructed := 0; trace := [] |}.

(** Writing one property into an object: in place when the key is there,
    at the end when it is not. *)
Fixpoint set_prop (k : string) (v : JsVal) (fields : ModalOptions) : ModalOptions :=
  match fields with
  | [] => [(k, v)]
  | (k', v') :: rest =>
      if k' =? k then (k, v) :: rest else (k', v') :: set_prop k v rest
  end.

(** [{...base, ...extra}] *)
Definition spread (base extra : ModalOptions) : ModalOptions :=
  fold_left (fun fields kv => set_prop (fst kv) (snd kv) fields) extra base.

Definition default_options : ModalOptions :=
  [("placement", JStr "center");
   ("backdrop", JStr "dynamic");
   ("backdropClasses", JStr "bg-gray-900/50 dark:bg-gray-900/80 fixed inset-0 z-40");
   ("closable", JBool true)].

(** [open (modalId, options)]; [found] is what [querySelector] answers for
    the id, and spreading a missing [options] adds nothing. *)
Definition open (found : option string) (options : option ModalOptions) (s : State) : State :=
  match found with
  | Some modalElement =>
      let modalOptions :=
        spread default_options (match options with Some o => o | None => [] end) in
      let modal := {| serial := constructed s;
                      element := modalElement;
                      modalOptions := modalOptions |} in
      {| modalInstance := Some modal;
         isOpenSubject := true;
         constructed := S (constructed s);
         trace := isOpen_next true :: show (serial modal) :: new_Modal modal :: trace s |}
  | None => s
  end.

Definition close (s : State) : State :=
  match modalInstance s with
  | Some modal =>
      {| modalInstance := modalInstance s;
         isOpenSubject := false;
         constructed := constructed s;
         trace := isOpen_next false :: hide (serial modal) :: trace s |}
  | None => s
  end.

Definition isOpen (s : State) : bool := isOpenSubject s.

Inductive Event : Type :=
| call_open (found : option string) (options : option ModalOptions)
| call_close.

Definition step (ev : Event) (s : State) : State :=
  match ev with
  | call_open found options => open found options s
  | call_close => close s
  end.

Definition run (events : list Event) (s : State) : State :=
  fold_left (fun s ev => step ev s) events s.

(** An [open] that finds its element. *)
Definition opens (ev : Event) : bool :=
  match ev with
  | call_open (Some _) _ => true
  | _ => false
  end.

(** How often the modal of a given serial was hidden. *)
Definition hidden_times (n : nat) (effects : list Effect) : nat :=
  List.length (filter (fun e => match e with
                                | hide m => Nat.eqb m n
                                | _ => false
                                end) effects).

(** Options of a caller: another backdrop, and [closable] set to
    [undefined]. *)
Definition page_options : ModalOptions :=
  [("backdrop", JStr "static"); ("closable", JUndefined)].

(** What holds of the service at every moment: before the first modal it is
    as it was constructed; after, the current modal is the last one
    constructed, and either it is reported open and showing it was the last
    thing done, or it is reported closed and hiding it was the last thing
    done. *)
Definition modal_invariant (s : State) : Prop :=
  match modalInstance s with
  | None => s = initial
  | Some modal =>
      S (serial modal) = constructed s /\
      if isOpenSubject s
      then exists rest,
             trace s = isOpen_next true :: show (serial modal) :: new_Modal modal :: rest
      else exists rest,
             trace s = isOpen_next false :: hide (serial modal) :: rest
  end.

End ModalService.

(** ** The navigation bar ([NavbarComponent]) *)
Module NavbarComponent.
Import Js WalletService.

(** The [networks] table of [getNetworkName]. *)
Definition networks : list (Z * string) :=
  [(1, "Ethereum Mainnet"); (3, "Ropsten"); (4, "Rinkeby"); (5, "Goerli");
   (56, "Binance Smart Chain"); (137, "Polygon"); (17000, "Holesky")]%Z.

Fixpoint networks_get (chainId : Z) (table : list (Z * string)) : option string :=
  match table with
  | [] => None
  | (id, name) :: rest => if (id =? chainId)%Z then Some name else networks_get chainId rest
  end.

(** [networks[chainId] || 'Unsupported Network']; an empty name would be
    falsy. *)
Definition getNetworkName (chainId : Z) : string :=
  match networks_get chainId networks with
  | Some name => if name =? "" then "Unsupported Network" else name
  | None => "Unsupported Network"
  end.

Record View : Type := {
  isConnected : bool;
  walletAddress : JsVal;
  networkName : string
}.

(** The fields as the component declares them. *)
Definition initial_view : View :=
  {| isConnected := false; walletAddress := JStr ""; networkName := "" |}.

(** The subscriber of [account$].  The channel is declared to carry
    accounts whose [chainId] is a number or [undefined]; [null] and the
    booleans, which a stored record can hold as well, are keys that the table
    does not have.  For a [chainId] that is a string, an array or an object
    the subscriber is not modelled ([None]): as a key it may name a property
    that every object inherits. *)
Definition on_account (account : JsVal) : option View :=
  let connected := truthy (opt_prop account "isConnected") in
  let address := or_ (opt_prop account "address") (JStr "") in
  match opt_prop account "chainId" with
  | JUndefined =>
      Some {| isConnected := connected; walletAddress := address; networkName := "" |}
  | JNum chainId =>
      Some {| isConnected := connected; walletAddress := address;
              networkName := getNetworkName chainId |}
  | JNull | JBool _ =>
      Some {| isConnected := connected; walletAddress := address;
              networkName := "Unsupported Network" |}
  | _ => None
  end.

(** [onNetworkButtonClick], with [switchToHolesky] up to its [await]: what
    it does to the wallet service. *)
Definition onNetworkButtonClick (view : View) : Action :=
  if networkName view =? "Unsupported Network"
  then switchNetwork_call
  else emit (console_log "Network is already supported").

End NavbarComponent.

(** * Properties *)

(** ** Strings *)
Section Substrings.

Lemma length_append (s t : string) :
  String.length (s ++ t) = String.length s + String.length t.
Proof.
  induction s as [|c s IH]; simpl; [reflexivity | now rewrite IH].
Qed.

Lemma substring_length (s : string) :
  forall n m, n + m <= String.length s -> String.length (substring n m s) = m.
Proof.
  induction s as [|c s IH]; intros n m H; simpl in H.
  - assert (n = 0) by lia. assert (m = 0) by lia. subst. reflexivity.
  - destruct n as [|n]; simpl.
    + destruct m as [|m]; simpl; [reflexivity | rewrite IH by lia; reflexivity].
    + apply IH. lia.
Qed.

(** A string is its first [n] characters followed by the rest. *)
Lemma substring_cut (s : string) :
  forall n, n <= String.length s ->
  s = substring 0 n s ++ substring n (String.length s - n) s.
Proof.
  induction s as [|c s IH]; intros n H; simpl in H.
  - assert (n = 0) by lia. subst. reflexivity.
  - destruct n as [|n].
    + simpl. f_equal. rewrite (IH 0) at 1 by lia. simpl.
      rewrite Nat.sub_0_r.
      destruct (String.length s); destruct s; reflexivity.
    + simpl. f_equal. apply IH. lia.
Qed.

(** Cutting a piece [n .. n+a+b] after its first [a] characters. *)
Lemma substring_add (s : string) :
  forall n a b, n + a + b <= String.length s ->
  substring n (a + b) s = substring n a s ++ substring (n + a) b s.
Proof.
  induction s as [|c s IH]; intros n a b H; simpl in H.
  - assert (n = 0) by lia. assert (a = 0) by lia. assert (b = 0) by lia.
    subst. reflexivity.
  - destruct n as [|n].
    + destruct a as [|a]; simpl.
      * destruct b; reflexivity.
      * f_equal. apply (IH 0). lia.
    + simpl. apply IH. lia.
Qed.

End Substrings.

(** ** The address pipe *)
Section AddressPipe.
Import Js WalletAddressFormatPipe.

Example transform_address :
  transform "0x52908400098527886E0F7030069857D2E4169EE7" = "0x5290...9EE7".
Proof. reflexivity. Qed.

Example transform_ten : transform "0123456789" = "012345...6789".
Proof. reflexivity. Qed.

Example transform_nine : transform "012345678" = "012345678".
Proof. reflexivity. Qed.

Lemma clamp_index_nonneg (len i : Z) :
  (0 <= i)%Z -> clamp_index len i = Z.min i len.
Proof.
  intros H. unfold clamp_index. destruct (Z.ltb_spec i 0); [lia | reflexivity].
Qed.

Lemma clamp_index_neg (len i : Z) :
  (i < 0)%Z -> clamp_index len i = Z.max (len + i) 0.
Proof.
  intros H. unfold clamp_index. destruct (Z.ltb_spec i 0); [reflexivity | lia].
Qed.

Lemma slice_first_six (value : string) :
  10 <= String.length value -> slice value 0 6 = substring 0 6 value.
Proof.
  intros H. unfold slice. rewrite !clamp_index_nonneg by lia.
  f_equal; lia.
Qed.

Lemma slice_last_four (value : string) :
  10 <= String.length value ->
  slice_from value (-4) = substring (String.length value - 4) 4 value.
Proof.
  intros H. unfold slice_from, slice.
  rewrite clamp_index_neg, clamp_index_nonneg by lia.
  f_equal; lia.
Qed.

(** C10.  On a string of at least ten characters the pipe answers the first
    six characters, three dots and the last four characters, thirteen
    characters in all; a shorter string, the empty one included, comes back
    as it is. *)
Theorem transform_shortens_long_addresses (value : string) :
  (10 <= String.length value ->
   exists firstSix middle lastFour,
     value = firstSix ++ middle ++ lastFour /\
     String.length firstSix = 6 /\
     String.length lastFour = 4 /\
     transform value = firstSix ++ "..." ++ lastFour /\
     String.length (transform value) = 13) /\
  (String.length value < 10 -> transform value = value).
Proof.
  split; intros H.
  - set (n := String.length value) in *.
    assert (Hcond : (value =? "") || (n <? 10)%nat = false).
    { apply orb_false_iff. split.
      - apply String.eqb_neq. intros ->. simpl in n. lia.
      - apply Nat.ltb_ge. exact H. }
    assert (Ht : transform value =
                 substring 0 6 value ++ "..." ++ substring (n - 4) 4 value).
    { unfold transform. fold n. rewrite Hcond.
      rewrite slice_first_six, slice_last_four by exact H. reflexivity. }
    exists (substring 0 6 value), (substring 6 (n - 10) value),
           (substring (n - 4) 4 value).
    repeat split.
    + rewrite (substring_cut value 6) at 1 by (fold n; lia). fold n.
      f_equal.
      replace (n - 6) with ((n - 10) + 4) by lia.
      rewrite substring_add by (fold n; lia).
      do 2 f_equal. lia.
    + apply substring_length. fold n. lia.
    + apply substring_length. fold n. lia.
    + exact Ht.
    + rewrite Ht, !length_append, !substring_length by (fold n; lia).
      reflexivity.
  - unfold transform.
    apply Nat.ltb_lt in H. rewrite H, orb_true_r. reflexivity.
Qed.

(** The pipe at a forty-two character address and at the empty string. *)
Lemma transform_shortens_long_addresses_witness :
  String.length (transform "0x52908400098527886E0F7030069857D2E4169EE7") = 13 /\
  transform "" = "".
Proof.
  split.
  - destruct (proj1 (transform_shortens_long_addresses
                       "0x52908400098527886E0F7030069857D2E4169EE7"))
      as (p & m & q & _ & _ & _ & _ & Hlen).
    + simpl. lia.
    + exact Hlen.
  - apply (proj2 (transform_shortens_long_addresses "")). simpl. lia.
Defined.

End AddressPipe.

(** ** Error routing *)
Section ErrorRouting.
Import Js WalletService Scenario.

Example errorMessage_user_rejected :
  errorMessage_of user_rejected = JStr "You rejected the wallet connection request.".
Proof. reflexivity. Qed.

Example errorMessage_with_message :
  errorMessage_of chain_not_configured = JStr "Chain not configured.".
Proof. reflexivity. Qed.

Example errorMessage_thrown_string :
  errorMessage_of thrown_string = JStr "An unknown error occurred. Please try again.".
Proof. reflexivity. Qed.

Lemma strict_eq_str_true (v : JsVal) (text : string) :
  strict_eq_str v text = true <-> v = JStr text.
Proof.
  destruct v; simpl; split; intros H; try discriminate.
  - apply String.eqb_eq in H. now subst.
  - injection H as ->. apply String.eqb_refl.
Qed.

Lemma strict_eq_str_false (v : JsVal) (text : string) :
  strict_eq_str v text = false <-> v <> JStr text.
Proof.
  rewrite <- strict_eq_str_true. destruct (strict_eq_str v text); split; congruence.
Qed.

(** The handler touches the error subject and the toast sink, nothing else. *)
Lemma handleConnectionError_frame (error : Thrown) (s : State) :
  let s' := handleConnectionError error s in
  accountSubject s' = accountSubject s /\
  chainIdSubject s' = chainIdSubject s /\
  loadingSubject s' = loadingSubject s /\
  localStorage s' = localStorage s.
Proof. repeat split. Qed.

Lemma handleConnectionError_toasts (error : Thrown) (s : State) :
  toasts (trace (handleConnectionError error s)) =
  (errorMessage_of error, "Connection Failed") :: toasts (trace s).
Proof. reflexivity. Qed.

(** C8, as the claim has it, fails on an error whose message is the empty
    string: the error carries a message field, and the resolved message is
    the generic one, not that field. *)
Lemma empty_message_is_not_used :
  opt_prop (thrown_value empty_message_error) "name" <> JStr "UserRejectedRequestError" /\
  opt_prop (thrown_value empty_message_error) "message" = JStr "" /\
  errorMessage_of empty_message_error = JStr "An unknown error occurred. Please try again." /\
  errorMessage_of empty_message_error <> opt_prop (thrown_value empty_message_error) "message".
Proof. repeat split; simpl; discriminate. Qed.

(** C8, amended.  A user-rejected error resolves to the fixed rejection
    message; otherwise a truthy message field (a non-empty string, in
    particular) is the resolved message as it is; otherwise, a missing or
    falsy message field gives the generic message.  In every case the error
    subject publishes the error itself when it is an [Error] and a new
    [Error] of the resolved message when it is not, then the toast sink
    receives the resolved message under the title "Connection Failed", and
    nothing else changes. *)
Theorem handleConnectionError_resolves (error : Thrown) (s : State) :
  let name := opt_prop (thrown_value error) "name" in
  let message := opt_prop (thrown_value error) "message" in
  let s' := handleConnectionError error s in
  (name = JStr "UserRejectedRequestError" ->
   errorMessage_of error = JStr "You rejected the wallet connection request.") /\
  (name <> JStr "UserRejectedRequestError" -> truthy message = true ->
   errorMessage_of error = message) /\
  (forall m, name <> JStr "UserRejectedRequestError" -> message = JStr m -> m <> "" ->
   errorMessage_of error = JStr m) /\
  (name <> JStr "UserRejectedRequestError" -> truthy message = false ->
   errorMessage_of error = JStr "An unknown error occurred. Please try again.") /\
  errorSubject s' =
    Some (if instanceof_Error error then the_error error
          else new_Error (errorMessage_of error)) /\
  trace s' =
    toastr_error (errorMessage_of error) "Connection Failed"
      :: error_next (errorSubject s') :: trace s /\
  accountSubject s' = accountSubject s /\
  chainIdSubject s' = chainIdSubject s /\
  loadingSubject s' = loadingSubject s /\
  localStorage s' = localStorage s.
Proof.
  intros name message s'.
  assert (Hother : name <> JStr "UserRejectedRequestError" ->
                   errorMessage_of error =
                   if truthy message then message
                   else JStr "An unknown error occurred. Please try again.").
  { intros Hname. apply strict_eq_str_false in Hname.
    unfold errorMessage_of. fold name message. now rewrite Hname. }
  split; [|split; [|split; [|split]]].
  - intros Hname. apply strict_eq_str_true in Hname.
    unfold errorMessage_of. fold name. now rewrite Hname.
  - intros Hname Htruthy. now rewrite Hother, Htruthy.
  - intros m Hname Hm Hne. rewrite Hother, Hm by assumption. simpl.
    apply String.eqb_neq in Hne. now rewrite Hne.
  - intros Hname Hfalsy. now rewrite Hother, Hfalsy.
  - repeat split.
Qed.

(** The three resolutions, at a user rejection, at a provider error with a
    message and at a thrown string. *)
Lemma handleConnectionError_resolves_witness :
  errorMessage_of user_rejected = JStr "You rejected the wallet connection request." /\
  errorMessage_of chain_not_configured = JStr "Chain not configured." /\
  errorMessage_of thrown_string = JStr "An unknown error occurred. Please try again.".
Proof.
  split; [|split].
  - apply (proj1 (handleConnectionError_resolves user_rejected (fresh None))).
    reflexivity.
  - apply (proj1 (proj2 (proj2 (handleConnectionError_resolves
                                   chain_not_configured (fresh None))))).
    + simpl. discriminate.
    + reflexivity.
    + discriminate.
  - apply (proj1 (proj2 (proj2 (proj2 (handleConnectionError_resolves
                                          thrown_string (fresh None)))))).
    + simpl. discriminate.
    + reflexivity.
Defined.

End ErrorRouting.

(** ** Network switch *)
Section SwitchNetwork.
Import Js WalletService Scenario.

Example switchNetwork_ok :
  snd (switchNetwork (resolved (JObj [("id", JNum 17000)])) (fresh None)) = true.
Proof. reflexivity. Qed.

Example switchNetwork_refused :
  switchNetwork (rejected user_rejected) (fresh None) =
  ({| accountSubject := JUndefined;
      chainIdSubject := JNull;
      loadingSubject := false;
      errorSubject := Some (the_error user_rejected);
      localStorage := None;
      trace := [toastr_error (JStr "You rejected the wallet connection request.")
                             "Connection Failed";
                error_next (Some (the_error user_rejected));
                provider (switchChain 17000)] |}, false).
Proof. reflexivity. Qed.

(** C7.  [switchNetwork] answers [true] exactly when [switchChain] resolves.
    When it rejects, the answer is [false], reached through the shared error
    routing, which adds exactly one toast.  The call itself only asks the
    provider for the Holesky chain: it publishes nothing on the loading
    subject and does not clear the error subject, and the loading subject is
    as it was when the method returns. *)
Theorem switchNetwork_answers (outcome : Settled) (s : State) :
  let called := switchNetwork_call s in
  let answer := switchNetwork outcome s in
  (snd answer = true <-> exists result, outcome = resolved result) /\
  (forall error, outcome = rejected error ->
     snd answer = false /\
     fst answer = handleConnectionError error called /\
     toasts (trace (fst answer)) =
       (errorMessage_of error, "Connection Failed") :: toasts (trace s)) /\
  (forall result, outcome = resolved result ->
     toasts (trace (fst answer)) = toasts (trace s) /\
     errorSubject (fst answer) = errorSubject s) /\
  trace called = provider (switchChain holesky_id) :: trace s /\
  loadingSubject called = loadingSubject s /\
  errorSubject called = errorSubject s /\
  loadingSubject (fst answer) = loadingSubject s /\
  (exists added, trace (fst answer) = (added ++ trace s)%list /\
                 forall loading, ~ In (loading_next loading) added).
Proof.
  intros called answer. subst called answer.
  destruct outcome as [result | error]; simpl.
  - split; [split; [intros _; now exists result | reflexivity]|].
    split; [intros e He; discriminate|].
    split; [intros r _; split; reflexivity|].
    repeat split.
    exists [console_log "Switched to:"; provider (switchChain holesky_id)].
    split; [reflexivity|].
    intros loading [H|[H|[]]]; discriminate.
  - split; [split; [discriminate | intros [r Hr]; discriminate]|].
    split.
    { intros e He. injection He as <-. repeat split. }
    split; [intros r Hr; discriminate|].
    repeat split.
    eexists [_; _; _]. split; [reflexivity|].
    intros loading [H|[H|[H|[]]]]; discriminate.
Qed.

(** The answers at a resolved and at a rejected [switchChain]. *)
Lemma switchNetwork_answers_witness :
  snd (switchNetwork (resolved JNull) (fresh None)) = true /\
  snd (switchNetwork (rejected user_rejected) (fresh None)) = false.
Proof.
  split.
  - apply (proj1 (switchNetwork_answers (resolved JNull) (fresh None))).
    now exists JNull.
  - apply (proj1 (proj2 (switchNetwork_answers (rejected user_rejected) (fresh None)))
             user_rejected).
    reflexivity.
Defined.

End SwitchNetwork.

(** ** Disconnect and failed connect *)
Section Settling.
Import Js WalletService Scenario.

Example disconnect_after_connect :
  let s := run [call_connectWallet type_injected;
                connect_resolved connected_holder live_connected;
                call_disconnectWallet;
                disconnect_resolved]
               (construct None live_disconnected live_disconnected) in
  accountSubject s = JUndefined /\ chainIdSubject s = JNull /\
  localStorage s = None /\ loadingSubject s = false.
Proof. repeat split. Qed.

(** C3.  When [disconnect] resolves, the account subject publishes
    [undefined], the chain subject [null], the stored record is removed and
    loading ends at [false].  When it rejects, in whatever state the
    rejection finds the service, the account subject, the chain subject and
    the stored record stay as they are and loading ends at [false].  The call
    itself changes none of the three. *)
Theorem disconnect_settles (error : Thrown) (s0 s : State) :
  let called := disconnectWallet s0 in
  let done := disconnectWallet_next s in
  let failed := disconnectWallet_error error s in
  (accountSubject called = accountSubject s0 /\
   chainIdSubject called = chainIdSubject s0 /\
   localStorage called = localStorage s0 /\
   loadingSubject called = true) /\
  (accountSubject done = JUndefined /\
   chainIdSubject done = JNull /\
   localStorage done = None /\
   loadingSubject done = false /\
   trace done = ([loading_next false; localStorage_removeItem; chainId_next JNull;
                  account_next JUndefined; console_log "Wallet disconnected"]
                 ++ trace s)%list) /\
  (accountSubject failed = accountSubject s /\
   chainIdSubject failed = chainIdSubject s /\
   localStorage failed = localStorage s /\
   loadingSubject failed = false /\
   trace failed =
     ([loading_next false;
       toastr_error (errorMessage_of error) "Connection Failed";
       error_next (errorSubject failed);
       console_error "Failed to disconnect wallet:"] ++ trace s)%list).
Proof.
  intros called done failed. subst called done failed.
  repeat split.
Qed.

(** C6.  A rejected [connect], of whatever connector type and with whatever
    error, in whatever state the rejection finds the service, leaves the
    stored record, the account subject and the chain subject as they are and
    ends with loading [false]; the call itself changes none of the three. *)
Theorem connect_failure (connectorType : ConnectorType) (error : Thrown)
        (between : list Event) (s0 : State) :
  let called := connectWallet connectorType s0 in
  let s := run between called in
  let failed := connectWallet_error error s in
  (localStorage called = localStorage s0 /\
   accountSubject called = accountSubject s0 /\
   chainIdSubject called = chainIdSubject s0 /\
   loadingSubject called = true /\
   errorSubject called = None) /\
  (localStorage failed = localStorage s /\
   accountSubject failed = accountSubject s /\
   chainIdSubject failed = chainIdSubject s /\
   loadingSubject failed = false /\
   trace failed =
     ([loading_next false;
       toastr_error (errorMessage_of error) "Connection Failed";
       error_next (errorSubject failed);
       console_error "Failed to connect wallet:"] ++ trace s)%list).
Proof.
  intros called s failed. subst failed.
  split; [subst called; destruct connectorType; repeat split|].
  repeat split.
Qed.

End Settling.

(** ** Restore and connect *)
Section Restore.
Import Js WalletService Scenario.

(** The three ways [updateAccount] goes, by what the store holds. *)
Lemma updateAccount_saved (live data : JsVal) (s : State) :
  localStorage s = Some (JsonText data) ->
  updateAccount live s =
  accountSubject_next data (emit (console_log "loadData") (reconnectWallet s)).
Proof. intros H. unfold updateAccount. rewrite H. reflexivity. Qed.

Lemma updateAccount_unparsed (live : JsVal) (text : string) (s : State) :
  localStorage s = Some (OtherText text) -> text <> "" ->
  updateAccount live s =
  emit (console_error "Failed to parse wallet connection state:") (reconnectWallet s).
Proof.
  intros H Hne. unfold updateAccount. rewrite H. simpl.
  apply String.eqb_neq in Hne. rewrite Hne. reflexivity.
Qed.

Lemma updateAccount_live (live : JsVal) (s : State) :
  has_savedState s = false ->
  updateAccount live s = accountSubject_next live s.
Proof.
  unfold has_savedState, updateAccount.
  destruct (localStorage s) as [savedState|]; [|reflexivity].
  intros ->. reflexivity.
Qed.

(** [updateAccount] writes neither the chain subject nor the store. *)
Lemma updateAccount_frame (live : JsVal) (s : State) :
  chainIdSubject (updateAccount live s) = chainIdSubject s /\
  localStorage (updateAccount live s) = localStorage s.
Proof.
  unfold updateAccount.
  destruct (localStorage s) as [[data|text]|] eqn:Hsaved; simpl;
    [| destruct (text =? "") |]; simpl; auto.
Qed.

Example restore_scenario :
  construct (Some (JsonText restored_record)) live_disconnected live_disconnected =
  {| accountSubject := restored_record;
     chainIdSubject := JNull;
     loadingSubject := true;
     errorSubject := None;
     localStorage := Some (JsonText restored_record);
     trace := [provider watchChainId; provider watchAccount;
               chainId_next JNull; account_next restored_record;
               console_log "loadData"; provider (reconnect supported_connectors);
               error_next None; loading_next true] |}.
Proof. reflexivity. Qed.

Example restore_broken_text :
  construct (Some broken_text) live_connected live_connected =
  {| accountSubject := JUndefined;
     chainIdSubject := JNum 17000;
     loadingSubject := true;
     errorSubject := None;
     localStorage := Some broken_text;
     trace := [provider watchChainId; provider watchAccount;
               chainId_next (JNum 17000);
               console_error "Failed to parse wallet connection state:";
               provider (reconnect supported_connectors);
               error_next None; loading_next true] |}.
Proof. reflexivity. Qed.

Example restore_nothing_saved :
  construct None live_connected live_connected =
  {| accountSubject := live_connected;
     chainIdSubject := JNum 17000;
     loadingSubject := false;
     errorSubject := None;
     localStorage := None;
     trace := [provider watchChainId; provider watchAccount;
               chainId_next (JNum 17000); account_next live_connected] |}.
Proof. reflexivity. Qed.

(** C4, as the claim has it, fails: with a stored text that does not parse
    the service does not start as it does with nothing stored.  The account
    subject keeps [undefined] instead of publishing the provider's account,
    and a reconnect is under way, with loading [true]. *)
Lemma unparsed_record_is_not_as_absent :
  accountSubject (construct (Some broken_text) live_connected live_connected) = JUndefined /\
  accountSubject (construct None live_connected live_connected) = live_connected /\
  loadingSubject (construct (Some broken_text) live_connected live_connected) = true /\
  loadingSubject (construct None live_connected live_connected) = false /\
  construct (Some broken_text) live_connected live_connected
    <> construct None live_connected live_connected.
Proof. repeat split. discriminate. Qed.

(** C4, amended.  With a stored text that is not empty and does not parse,
    construction runs to its end (both watchers are started): the parse
    failure is caught and logged on the console, nothing is published on the
    account subject, which keeps [undefined], the chain subject publishes the
    chain id of the live provider account ([null] when it has none), and the
    reconnect that [updateAccount] starts before parsing is under way, with
    loading [true] and the error subject cleared; the store is not touched. *)
Theorem restore_unparsed_record (text : string) (live_account live_chain : JsVal) :
  text <> "" ->
  let s := construct (Some (OtherText text)) live_account live_chain in
  let chain := or_ (opt_prop (opt_prop live_chain "chain") "id") JNull in
  trace s = [provider watchChainId; provider watchAccount;
             chainId_next chain;
             console_error "Failed to parse wallet connection state:";
             provider (reconnect supported_connectors);
             error_next None; loading_next true] /\
  accountSubject s = JUndefined /\
  chainIdSubject s = chain /\
  loadingSubject s = true /\
  errorSubject s = None /\
  localStorage s = Some (OtherText text).
Proof.
  intros Hne s chain. subst s chain.
  unfold construct, initialize, andThen.
  rewrite (updateAccount_unparsed live_account text) by (reflexivity || exact Hne).
  repeat split.
Qed.

Lemma restore_unparsed_record_witness :
  accountSubject (construct (Some broken_text) live_connected live_connected) = JUndefined.
Proof.
  apply (restore_unparsed_record "{address:" live_connected live_connected).
  discriminate.
Defined.

(** C5, as the claim has it, fails: with the record of the scenario stored
    and no wallet connected at the provider yet, the chain subject publishes
    [null], not 17000. *)
Lemma restored_chain_is_the_live_one :
  let s := construct (Some (JsonText restored_record))
                     live_disconnected live_disconnected in
  opt_prop (accountSubject s) "address" = JStr "0xAB...1234" /\
  chainIdSubject s = JNull /\
  chainIdSubject s <> JNum 17000 /\
  ~ In (chainId_next (JNum 17000)) (trace s).
Proof.
  repeat split; try discriminate.
  simpl. intros H. repeat (destruct H as [H|H]; [discriminate|]). exact H.
Qed.

(** C5, amended.  With a record stored, construction publishes that record
    on the account subject at once, after starting the reconnect and before
    any answer to it; the chain subject publishes the chain id of the live
    provider account, [null] when it has none, whatever chain id the record
    holds.  For the record of the scenario the published account has the
    address "0xAB...1234", and the chain subject publishes 17000 when the
    live account is on chain 17000. *)
Theorem restore_publishes_record (data live_account live_chain : JsVal) :
  let s := construct (Some (JsonText data)) live_account live_chain in
  let chain := or_ (opt_prop (opt_prop live_chain "chain") "id") JNull in
  trace s = [provider watchChainId; provider watchAccount;
             chainId_next chain; account_next data;
             console_log "loadData"; provider (reconnect supported_connectors);
             error_next None; loading_next true] /\
  accountSubject s = data /\
  chainIdSubject s = chain /\
  (data = restored_record ->
   opt_prop (accountSubject s) "address" = JStr "0xAB...1234") /\
  (opt_prop (opt_prop live_chain "chain") "id" = JNum 17000 ->
   chainIdSubject s = JNum 17000).
Proof.
  intros s chain. subst s chain.
  split; [reflexivity|]. split; [reflexivity|]. split; [reflexivity|].
  split.
  - intros ->. reflexivity.
  - simpl. intros ->. reflexivity.
Qed.

Lemma restore_publishes_record_witness :
  let s := construct (Some (JsonText restored_record)) live_connected live_connected in
  opt_prop (accountSubject s) "address" = JStr "0xAB...1234" /\
  chainIdSubject s = JNum 17000.
Proof.
  pose proof (restore_publishes_record restored_record live_connected live_connected)
    as (_ & _ & _ & Haddress & Hchain).
  split; [apply Haddress | apply Hchain]; reflexivity.
Defined.

End Restore.

(** ** Successful connect *)
Section Connect.
Import Js WalletService Scenario Spec.

Example first_connect :
  run [call_connectWallet type_walletConnect;
       connect_resolved connected_holder live_connected]
      (construct None live_disconnected live_disconnected) =
  {| accountSubject := live_connected;
     chainIdSubject := JNull;
     loadingSubject := false;
     errorSubject := None;
     localStorage := Some (JsonText (JObj [("address", JStr holder);
                                           ("chainId", JNum 17000);
                                           ("isConnected", JBool true)]));
     trace := [loading_next false;
               localStorage_setItem (JsonText (JObj [("address", JStr holder);
                                                     ("chainId", JNum 17000);
                                                     ("isConnected", JBool true)]));
               account_next live_connected;
               console_log "Wallet connected:";
               provider (connect (walletConnect "5c2ca0dd3003fb371acdb8442a626a0c" true));
               error_next None; loading_next true;
               provider watchChainId; provider watchAccount;
               chainId_next JNull; account_next live_disconnected] |}.
Proof. reflexivity. Qed.

(** C2.  The code departs from the claim, and from the docstring of
    [updateAccount] and the first draft: a connect that resolves while the
    record of an earlier connect is stored publishes that stored record on
    the account subject, not the provider's live account, after starting a
    reconnect; the record of the new connect is stored all the same.  The
    first draft publishes the live account on the same events. *)
Lemma second_connect_publishes_stored_record :
  let s := run [call_connectWallet type_injected;
                connect_resolved connected_holder live_connected;
                call_connectWallet type_coinbase;
                connect_resolved connected_other live_other]
               (construct None live_disconnected live_disconnected) in
  accountSubject s = JObj [("address", JStr holder);
                           ("chainId", JNum 17000);
                           ("isConnected", JBool true)] /\
  accountSubject s <> live_other /\
  localStorage s = Some (JsonText (JObj [("address", JStr other_holder);
                                         ("chainId", JNum 17000);
                                         ("isConnected", JBool true)])) /\
  firstn 8 (trace s) =
    [loading_next false;
     localStorage_setItem (JsonText (JObj [("address", JStr other_holder);
                                           ("chainId", JNum 17000);
                                           ("isConnected", JBool true)]));
     account_next (JObj [("address", JStr holder);
                         ("chainId", JNum 17000);
                         ("isConnected", JBool true)]);
     console_log "loadData";
     provider (reconnect supported_connectors);
     error_next None; loading_next true;
     console_log "Wallet connected:"] /\
  accountSubject
    (WalletServiceDraft1.run
       [call_connectWallet type_injected;
        connect_resolved connected_holder live_connected;
        call_connectWallet type_coinbase;
        connect_resolved connected_other live_other]
       (WalletServiceDraft1.construct None live_disconnected live_disconnected))
  = live_other.
Proof. repeat split. discriminate. Qed.

(** What holds of a resolved connect.  For every connector type, in
    whatever state the resolution finds the service, the handler stores the
    record of the first returned account, the returned chain id and
    [isConnected] true, and ends with loading [false]; when no saved session
    is in the store at that moment, it publishes on the account subject the
    provider's live account, asked for afresh. *)
Theorem connect_success (connectorType : ConnectorType) (between : list Event)
        (s0 : State) (first : string) (others : list string) (id : Z)
        (live : JsVal) :
  let s := run between (connectWallet connectorType s0) in
  let record := JObj [("address", JStr first); ("chainId", JNum id);
                      ("isConnected", JBool true)] in
  let s' := connectWallet_next {| accounts := first :: others; chainId := id |} live s in
  localStorage s' = Some (JsonText record) /\
  loadingSubject s' = false /\
  (has_savedState s = false ->
   accountSubject s' = live /\
   trace s' = ([loading_next false; localStorage_setItem (JsonText record);
                account_next live; console_log "Wallet connected:"]
               ++ trace s)%list).
Proof.
  intros s record s'. subst s' record.
  unfold connectWallet_next, andThen.
  split; [reflexivity|]. split; [reflexivity|].
  intros Hnone. simpl.
  rewrite updateAccount_live by exact Hnone. split; reflexivity.
Qed.

Lemma connect_success_witness :
  accountSubject
    (connectWallet_next connected_holder live_connected
       (connectWallet type_coinbase
          (construct None live_disconnected live_disconnected))) = live_connected.
Proof.
  apply (connect_success type_coinbase []
           (construct None live_disconnected live_disconnected)
           holder [] 17000 live_connected).
  reflexivity.
Defined.

End Connect.

(** ** Who writes the channels and the store *)
Section Writers.
Import Js WalletService Scenario Spec.

Lemma step_keeps_chainId (ev : Event) (s : State) :
  writes_chainId ev = false -> chainIdSubject (step ev s) = chainIdSubject s.
Proof.
  destruct ev as [t|result live|e| | |e| |result|e| |outcome|account|chainId];
    simpl; intros H; try discriminate; try reflexivity.
  - unfold connectWallet_next, andThen. simpl.
    now rewrite (proj1 (updateAccount_frame live _)).
  - destruct outcome; reflexivity.
Qed.

Lemma step_keeps_store (ev : Event) (s : State) :
  writes_store ev = false -> localStorage (step ev s) = localStorage s.
Proof.
  destruct ev as [t|result live|e| | |e| |result|e| |outcome|account|chainId];
    simpl; intros H; try discriminate; try reflexivity.
  destruct outcome; reflexivity.
Qed.

(** Along any run without a writing event the chain subject keeps its
    value, and so does the store. *)
Lemma run_keeps_chainId (events : list Event) :
  forall s, forallb (fun ev => negb (writes_chainId ev)) events = true ->
            chainIdSubject (run events s) = chainIdSubject s.
Proof.
  induction events as [|ev events IH]; intros s H; [reflexivity|].
  simpl in H. apply andb_true_iff in H as [Hev Hrest].
  apply negb_true_iff in Hev.
  change (run (ev :: events) s) with (run events (step ev s)).
  rewrite IH by exact Hrest. now apply step_keeps_chainId.
Qed.

Lemma run_keeps_store (events : list Event) :
  forall s, forallb (fun ev => negb (writes_store ev)) events = true ->
            localStorage (run events s) = localStorage s.
Proof.
  induction events as [|ev events IH]; intros s H; [reflexivity|].
  simpl in H. apply andb_true_iff in H as [Hev Hrest].
  apply negb_true_iff in Hev.
  change (run (ev :: events) s) with (run events (step ev s)).
  rewrite IH by exact Hrest. now apply step_keeps_store.
Qed.

(** C1, as the claim has it, fails: after a first connect the account
    subject holds a connected account on chain 17000 while the chain subject
    still holds [null]. *)
Lemma connect_leaves_chain_stale :
  let s := run [call_connectWallet type_injected;
                connect_resolved connected_holder live_connected]
               (construct None live_disconnected live_disconnected) in
  connected (accountSubject s) = true /\
  opt_prop (accountSubject s) "chainId" = JNum 17000 /\
  chainIdSubject s = JNull /\
  ~ channels_consistent s.
Proof.
  repeat split. intros [Hconnected _].
  specialize (Hconnected eq_refl). discriminate.
Qed.

(** C1, amended.  Only a resolved disconnect writes both channels in one
    handler: it publishes [undefined] on the account subject and [null] on
    the chain subject.  Besides it the chain subject is written only at
    construction (the live provider account's chain id, or [null]) and by the
    chain watcher (the pushed id, or [null]); a resolved connect and the
    account watcher write the account subject and leave the chain subject as
    it was, the account watcher publishing [undefined] for an absent account;
    every other call and settlement leaves both as they were, so the chain
    subject keeps its value along any run without a resolved disconnect or a
    chain watcher event. *)
Theorem channel_writers :
  (forall saved live_account live_chain,
     chainIdSubject (construct saved live_account live_chain) =
     or_ (opt_prop (opt_prop live_chain "chain") "id") JNull) /\
  (forall ev s,
     let s' := step ev s in
     match ev with
     | disconnect_resolved =>
         accountSubject s' = JUndefined /\ chainIdSubject s' = JNull
     | chainId_changed chainId =>
         accountSubject s' = accountSubject s /\
         chainIdSubject s' = or_ chainId JNull
     | account_changed account =>
         accountSubject s' = or_ account JUndefined /\
         chainIdSubject s' = chainIdSubject s
     | connect_resolved _ _ =>
         chainIdSubject s' = chainIdSubject s
     | _ =>
         accountSubject s' = accountSubject s /\
         chainIdSubject s' = chainIdSubject s
     end) /\
  (forall events s,
     forallb (fun ev => negb (writes_chainId ev)) events = true ->
     chainIdSubject (run events s) = chainIdSubject s).
Proof.
  split; [|split; [|exact run_keeps_chainId]].
  - intros saved live_account live_chain. reflexivity.
  - intros ev s s'. subst s'.
    destruct ev as [t|result live|e| | |e| |result|e| |outcome|account|chainId];
      simpl; try (split; reflexivity).
    + unfold connectWallet_next, andThen. simpl.
      now rewrite (proj1 (updateAccount_frame live _)).
    + destruct outcome; split; reflexivity.
Qed.

(** C9, as the claim has it, fails: a reconnect that resolves with no
    connection writes a record whose [isConnected] is false. *)
Lemma reconnect_stores_disconnected_record :
  let s := run [call_reconnectWallet; reconnect_resolved no_connections]
               (construct None live_disconnected live_disconnected) in
  let s2 := run [call_reconnectWallet; reconnect_resolved not_reconnected]
                (construct None live_disconnected live_disconnected) in
  localStorage s = Some (JsonText (JObj [("isConnected", JBool false)])) /\
  localStorage s2 = Some (JsonText (JObj [("chainId", JNum 17000);
                                          ("isConnected", JBool false)])) /\
  ~ record_says_connected (localStorage s).
Proof.
  repeat split. intros H.
  specialize (H _ eq_refl). discriminate.
Qed.

(** C9, amended.  The store is written by a resolved connect, which stores
    the first returned account, the returned chain id and [isConnected] true,
    and by a resolved reconnect, which stores the returned account and chain
    id and the returned [isConnected], or false when that is falsy; it is
    emptied by a resolved disconnect; construction and every other call,
    settlement (a rejected disconnect among them) and watcher event leave it
    as it was, along any run. *)
Theorem store_writers :
  (forall saved live_account live_chain,
     localStorage (construct saved live_account live_chain) = saved) /\
  (forall ev s,
     let s' := step ev s in
     match ev with
     | connect_resolved result _ =>
         localStorage s' =
         Some (JSON_stringify (JObj [("address", index0 (accounts result));
                                     ("chainId", JNum (chainId result));
                                     ("isConnected", JBool true)]))
     | reconnect_resolved result =>
         localStorage s' =
         Some (JSON_stringify
                 (JObj [("address", lookup "account" result);
                        ("chainId", lookup "chainId" result);
                        ("isConnected", or_ (lookup "isConnected" result) (JBool false))]))
     | disconnect_resolved => localStorage s' = None
     | _ => localStorage s' = localStorage s
     end) /\
  (forall events s,
     forallb (fun ev => negb (writes_store ev)) events = true ->
     localStorage (run events s) = localStorage s).
Proof.
  split; [|split; [|exact run_keeps_store]].
  - intros saved live_account live_chain.
    unfold construct, initialize, andThen. simpl.
    apply (updateAccount_frame live_account (fresh saved)).
  - intros ev s s'. subst s'.
    destruct ev as [t|result live|e| | |e| |result|e| |outcome|account|chainId];
      simpl; try reflexivity.
    destruct outcome; reflexivity.
Qed.

(** A connect, an account switch pushed by the provider and a rejected
    disconnect leave the chain subject at the [null] of construction. *)
Lemma channel_writers_witness :
  chainIdSubject
    (run [call_connectWallet type_injected;
          connect_resolved connected_holder live_connected;
          account_changed live_other;
          call_disconnectWallet;
          disconnect_rejected chain_not_configured]
         (construct None live_disconnected live_disconnected)) = JNull.
Proof.
  rewrite (proj2 (proj2 channel_writers)); reflexivity.
Defined.

(** A rejected disconnect leaves the record of the connect in the store. *)
Lemma store_writers_witness :
  localStorage
    (run [account_changed live_other;
          call_disconnectWallet;
          disconnect_rejected chain_not_configured]
         (run [call_connectWallet type_injected;
               connect_resolved connected_holder live_connected]
              (construct None live_disconnected live_disconnected))) =
  Some (JsonText (JObj [("address", JStr holder); ("chainId", JNum 17000);
                        ("isConnected", JBool true)])).
Proof.
  rewrite (proj2 (proj2 store_writers)); reflexivity.
Defined.

End Writers.

(** ** Reconnect, reload and runs of the wallet service *)
Section WalletRunsFacts.
Import Js WalletService WalletRuns Scenario.

Lemma run_snoc (events : list Event) (ev : Event) (s : State) :
  run (events ++ [ev]) s = step ev (run events s).
Proof. unfold run. now rewrite fold_left_app. Qed.

Lemma run_cons (ev : Event) (events : list Event) (s : State) :
  run (ev :: events) s = run events (step ev s).
Proof. reflexivity. Qed.

Lemma updateAccount_toasts (live : JsVal) (s : State) :
  toasts (trace (updateAccount live s)) = toasts (trace s).
Proof.
  unfold updateAccount.
  destruct (localStorage s) as [[data|text]|]; simpl;
    [| destruct (text =? "") |]; reflexivity.
Qed.

Lemma step_toasts (ev : Event) (s : State) :
  toasts (trace (step ev s)) = (toast_of ev ++ toasts (trace s))%list.
Proof.
  destruct ev as [t|result live|e| | |e| |result|e| |outcome|account|chainId];
    try reflexivity.
  - unfold step, connectWallet_next, andThen. simpl.
    now rewrite updateAccount_toasts.
  - destruct outcome; reflexivity.
Qed.

Lemma step_keeps_account (ev : Event) (s : State) :
  writes_account ev = false -> accountSubject (step ev s) = accountSubject s.
Proof.
  destruct ev as [t|result live|e| | |e| |result|e| |outcome|account|chainId];
    simpl; intros H; try discriminate; try reflexivity.
  destruct outcome; reflexivity.
Qed.

Lemma run_keeps_account (events : list Event) :
  forall s, forallb (fun ev => negb (writes_account ev)) events = true ->
            accountSubject (run events s) = accountSubject s.
Proof.
  induction events as [|ev events IH]; intros s H; [reflexivity|].
  simpl in H. apply andb_true_iff in H as [Hev Hrest].
  apply negb_true_iff in Hev.
  rewrite run_cons, IH by exact Hrest. now apply step_keeps_account.
Qed.

(** X1.  A reconnect publishes nothing on the account and chain subjects,
    however it settles and in whatever state.  When it resolves it writes
    the returned record to the store (the returned account and chain id, and
    the returned [isConnected] or false), shows no toast, leaves the error
    subject and does nothing else but log and end loading; when it rejects
    it leaves the store, routes the error, which shows one toast, and ends
    loading.  So the record published at a restore is still on the account
    subject when the reconnect that the restore started settles, either way,
    after any events in between that are not themselves a resolved connect,
    a resolved disconnect or an account watcher event. *)
Theorem reconnect_publishes_no_account
        (result : ReconnectResult) (error : Thrown) (s : State) :
  let done := reconnectWallet_resolved result s in
  let failed := reconnectWallet_rejected error s in
  (accountSubject done = accountSubject s /\
   chainIdSubject done = chainIdSubject s /\
   errorSubject done = errorSubject s /\
   loadingSubject done = false /\
   localStorage done = Some (JSON_stringify (reconnect_record result)) /\
   toasts (trace done) = toasts (trace s) /\
   trace done =
     ([loading_next false;
       localStorage_setItem (JSON_stringify (reconnect_record result));
       console_log "Reconnected wallet:"] ++ trace s)%list) /\
  (accountSubject failed = accountSubject s /\
   chainIdSubject failed = chainIdSubject s /\
   localStorage failed = localStorage s /\
   loadingSubject failed = false /\
   toasts (trace failed) =
     (errorMessage_of error, "Connection Failed") :: toasts (trace s) /\
   trace failed =
     ([loading_next false;
       toastr_error (errorMessage_of error) "Connection Failed";
       error_next (errorSubject failed);
       console_error "Failed to reconnect wallet:"] ++ trace s)%list) /\
  (forall data live_account live_chain between,
     forallb (fun ev => negb (writes_account ev)) between = true ->
     let restored := construct (Some (JsonText data)) live_account live_chain in
     accountSubject restored = data /\
     accountSubject (reconnectWallet_resolved result (run between restored)) = data /\
     accountSubject (reconnectWallet_rejected error (run between restored)) = data).
Proof.
  intros done failed. subst done failed.
  split; [repeat split|]. split; [repeat split|].
  intros data live_account live_chain between Hbetween restored.
  split; [reflexivity|].
  change (accountSubject (reconnectWallet_resolved result (run between restored)))
    with (accountSubject (run between restored)).
  change (accountSubject (reconnectWallet_rejected error (run between restored)))
    with (accountSubject (run between restored)).
  rewrite run_keeps_account by exact Hbetween. split; reflexivity.
Qed.

(** A restore, then a failed connect and a chain change, then the
    reconnect of the restore rejects: the stored record is still published. *)
Lemma reconnect_publishes_no_account_witness :
  accountSubject
    (reconnectWallet_rejected chain_not_configured
       (run [call_connectWallet type_injected; connect_rejected user_rejected;
             chainId_changed (JNum 1)]
            (construct (Some (JsonText restored_record))
                       live_disconnected live_disconnected))) = restored_record.
Proof.
  apply (proj2 (proj2 (reconnect_publishes_no_account
                         no_connections chain_not_configured (fresh None)))
           restored_record live_disconnected live_disconnected
           [call_connectWallet type_injected; connect_rejected user_rejected;
            chainId_changed (JNum 1)]).
  reflexivity.
Defined.

(** X2.  What a resolved connect stores is what the next page load
    publishes: if nothing writes the store in between, a service constructed
    on the store that the connect left publishes on its account subject the
    record of the first account, the chain id and [isConnected] true, and
    starts a reconnect. *)
Theorem connect_then_reload (first : string) (others : list string) (id : Z)
        (live : JsVal) (s : State) (between : list Event)
        (live_account live_chain : JsVal) :
  forallb (fun ev => negb (writes_store ev)) between = true ->
  let connected :=
    connectWallet_next {| accounts := first :: others; chainId := id |} live s in
  let reloaded :=
    construct (localStorage (run between connected)) live_account live_chain in
  let record := JObj [("address", JStr first); ("chainId", JNum id);
                      ("isConnected", JBool true)] in
  accountSubject reloaded = record /\
  loadingSubject reloaded = true /\
  trace reloaded =
    [provider watchChainId; provider watchAccount;
     chainId_next (chainIdSubject reloaded); account_next record;
     console_log "loadData"; provider (reconnect supported_connectors);
     error_next None; loading_next true].
Proof.
  intros Hbetween connected reloaded record. subst reloaded.
  rewrite run_keeps_store by exact Hbetween.
  subst connected. repeat split.
Qed.

Lemma connect_then_reload_witness :
  accountSubject
    (construct
       (localStorage
          (run [call_disconnectWallet; disconnect_rejected chain_not_configured]
               (connectWallet_next connected_holder live_connected (fresh None))))
       live_disconnected live_disconnected) =
  JObj [("address", JStr holder); ("chainId", JNum 17000); ("isConnected", JBool true)].
Proof.
  apply (connect_then_reload holder [] 17000 live_connected (fresh None)
           [call_disconnectWallet; disconnect_rejected chain_not_configured]
           live_disconnected live_disconnected).
  reflexivity.
Defined.

(** X3.  After a resolved disconnect, and as long as nothing writes the
    store, the next page load finds nothing stored: it publishes the
    provider's live account and starts no reconnect. *)
Theorem disconnect_then_reload (s : State) (between : list Event)
        (live_account live_chain : JsVal) :
  forallb (fun ev => negb (writes_store ev)) between = true ->
  let reloaded :=
    construct (localStorage (run between (disconnectWallet_next s)))
              live_account live_chain in
  reloaded = construct None live_account live_chain /\
  accountSubject reloaded = live_account /\
  loadingSubject reloaded = false /\
  ~ In (provider (reconnect supported_connectors)) (trace reloaded).
Proof.
  intros Hbetween reloaded. subst reloaded.
  rewrite run_keeps_store by exact Hbetween.
  repeat split. simpl.
  intros H. repeat (destruct H as [H|H]; [discriminate|]). exact H.
Qed.

Lemma disconnect_then_reload_witness :
  accountSubject
    (construct
       (localStorage
          (run [call_connectWallet type_injected; connect_rejected user_rejected]
               (disconnectWallet_next
                  (construct (Some (JsonText restored_record))
                             live_connected live_connected))))
       live_connected live_connected) = live_connected.
Proof.
  apply (disconnect_then_reload
           (construct (Some (JsonText restored_record)) live_connected live_connected)
           [call_connectWallet type_injected; connect_rejected user_rejected]
           live_connected live_connected).
  reflexivity.
Defined.

End WalletRunsFacts.

(** ** What holds along every run of the wallet service *)
Section WalletInvariants.
Import Js WalletService WalletRuns Scenario.

Lemma step_keeps_session (ev : Event) (s : State) :
  keeps_session ev = true -> has_savedState s = true ->
  has_savedState (step ev s) = true.
Proof.
  intros Hev Hsaved.
  destruct (writes_store ev) eqn:Hwrites.
  - destruct ev; try discriminate; reflexivity.
  - unfold has_savedState in *. now rewrite step_keeps_store.
Qed.

(** X4.  A saved session stays saved until a disconnect resolves: along
    any run without a resolved disconnect, failures and watcher events
    included, the store keeps a text that the next [updateAccount] takes for
    a saved session. *)
Theorem saved_session_persists (events : list Event) :
  forall s, has_savedState s = true ->
            forallb keeps_session events = true ->
            has_savedState (run events s) = true.
Proof.
  induction events as [|ev events IH]; intros s Hsaved Hkeep; [exact Hsaved|].
  simpl in Hkeep. apply andb_true_iff in Hkeep as [Hev Hrest].
  rewrite run_cons. apply IH; [|exact Hrest].
  now apply step_keeps_session.
Qed.

Lemma saved_session_persists_witness :
  has_savedState
    (run [call_disconnectWallet; disconnect_rejected chain_not_configured;
          account_changed JUndefined; call_reconnectWallet;
          reconnect_rejected user_rejected]
         (run [call_connectWallet type_injected;
               connect_resolved connected_holder live_connected]
              (construct None live_disconnected live_disconnected))) = true.
Proof.
  apply saved_session_persists; reflexivity.
Defined.

(** X5.  The toasts shown along a run are exactly one per rejected promise
    ([connect], [disconnect], [reconnect] or [switchChain]), in the order of
    the rejections, each with the resolved message of its error under the
    title "Connection Failed"; no other event shows a toast. *)
Theorem toasts_are_the_rejections (events : list Event) :
  forall s, toasts (trace (run events s)) =
            (rev (flat_map toast_of events) ++ toasts (trace s))%list.
Proof.
  induction events as [|ev events IH]; intros s; [reflexivity|].
  rewrite run_cons, IH, step_toasts. simpl.
  rewrite rev_app_distr, <- app_assoc.
  do 2 f_equal. unfold toast_of. now destruct (rejection_error ev).
Qed.

Lemma step_loading (ev : Event) (s : State) :
  (is_settlement ev = true -> loadingSubject (step ev s) = false) /\
  (is_gated_call ev = true ->
   loadingSubject (step ev s) = true /\ errorSubject (step ev s) = None) /\
  (is_settlement ev = false -> is_gated_call ev = false ->
   loadingSubject (step ev s) = loadingSubject s).
Proof.
  destruct ev as [t|result live|e| | |e| |result|e| |outcome|account|chainId];
    simpl; repeat split; intros; try discriminate; try reflexivity.
  destruct outcome; reflexivity.
Qed.

(** X6.  The loading subject follows the last call or settlement alone, not
    the number of operations in flight: after any run, a settlement of
    [connect], [disconnect] or [reconnect] leaves loading [false], a call of
    [connectWallet], [disconnectWallet] or [reconnectWallet] leaves loading
    [true] and the error subject cleared, and [switchNetwork] and the
    watchers leave loading as it was. *)
Theorem loading_follows_last_event (events : list Event) (ev : Event) (s : State) :
  let before := run events s in
  let after := run (events ++ [ev]) s in
  (is_settlement ev = true -> loadingSubject after = false) /\
  (is_gated_call ev = true ->
   loadingSubject after = true /\ errorSubject after = None) /\
  (is_settlement ev = false -> is_gated_call ev = false ->
   loadingSubject after = loadingSubject before).
Proof.
  intros before after. subst before after. rewrite run_snoc.
  apply step_loading.
Qed.

(** Two operations in flight, one rejects: loading is [false] while the
    other is still awaited. *)
Lemma loading_follows_last_event_witness :
  loadingSubject
    (run ([call_connectWallet type_injected; call_disconnectWallet]
          ++ [connect_rejected user_rejected])
         (construct None live_disconnected live_disconnected)) = false.
Proof.
  apply (proj1 (loading_follows_last_event
                  [call_connectWallet type_injected; call_disconnectWallet]
                  (connect_rejected user_rejected)
                  (construct None live_disconnected live_disconnected))).
  reflexivity.
Defined.

(** [reconnectWallet] offers the provider exactly the connectors that
    [connectWallet] builds, one for each connector type in the order
    injected, coinbase, walletConnect, and two connector types never give the
    same connector. *)
Lemma reconnect_offers_the_connect_connectors :
  supported_connectors = map connector_of all_connectorTypes /\
  (forall t, In (connector_of t) supported_connectors) /\
  (forall t1 t2, connector_of t1 = connector_of t2 -> t1 = t2).
Proof.
  split; [reflexivity|]. split.
  - intros t. destruct t; simpl; auto.
  - intros t1 t2. destruct t1, t2; simpl; intros H; try reflexivity; discriminate.
Qed.

Lemma or_null_is_null_or_truthy (v : JsVal) : null_or_truthy (or_ v JNull).
Proof.
  unfold null_or_truthy, or_. destruct (truthy v) eqn:Hv; auto.
Qed.

Lemma step_null_or_truthy (ev : Event) (s : State) :
  null_or_truthy (chainIdSubject s) -> null_or_truthy (chainIdSubject (step ev s)).
Proof.
  intros H. destruct (writes_chainId ev) eqn:Hwrites.
  - destruct ev; try discriminate; simpl.
    + now left.
    + apply or_null_is_null_or_truthy.
  - now rewrite step_keeps_chainId.
Qed.

(** X7.  The chain subject of a constructed service holds, after any run,
    either [null] or a truthy value: a chain id of 0, [undefined], an empty
    string or [false] from the provider is published as [null]. *)
Theorem chain_subject_null_or_truthy (events : list Event)
        (saved : option StoredText) (live_account live_chain : JsVal) :
  null_or_truthy
    (chainIdSubject (run events (construct saved live_account live_chain))).
Proof.
  assert (Hrun : forall evs s, null_or_truthy (chainIdSubject s) ->
                               null_or_truthy (chainIdSubject (run evs s))).
  { induction evs as [|ev evs IH]; intros s Hs; [exact Hs|].
    rewrite run_cons. apply IH. now apply step_null_or_truthy. }
  apply Hrun.
  unfold construct, initialize, andThen. simpl.
  apply or_null_is_null_or_truthy.
Qed.

(** X8.  A connect that resolves while the record of an earlier connect is
    still in the store (nothing wrote the store in between) publishes that
    earlier record on the account subject, not the live account, starts a
    reconnect, and then stores the record of the new connect. *)
Theorem later_connect_publishes_earlier_record
        (first : string) (others : list string) (id : Z) (live : JsVal)
        (s : State) (between : list Event)
        (result' : ConnectResult) (live' : JsVal) :
  forallb (fun ev => negb (writes_store ev)) between = true ->
  let earlier :=
    connectWallet_next {| accounts := first :: others; chainId := id |} live s in
  let at_resolve := run between earlier in
  let later := connectWallet_next result' live' at_resolve in
  let record := JObj [("address", JStr first); ("chainId", JNum id);
                      ("isConnected", JBool true)] in
  accountSubject later = record /\
  localStorage later = Some (JSON_stringify (connect_record result')) /\
  loadingSubject later = false /\
  trace later =
    ([loading_next false;
      localStorage_setItem (JSON_stringify (connect_record result'));
      account_next record; console_log "loadData";
      provider (reconnect supported_connectors);
      error_next None; loading_next true;
      console_log "Wallet connected:"] ++ trace at_resolve)%list.
Proof.
  intros Hbetween earlier at_resolve later record.
  assert (Hstore : localStorage at_resolve = Some (JsonText record)).
  { subst at_resolve. rewrite run_keeps_store by exact Hbetween. reflexivity. }
  subst later. unfold connectWallet_next, andThen.
  rewrite (updateAccount_saved live' record) by exact Hstore.
  repeat split.
Qed.

Lemma later_connect_publishes_earlier_record_witness :
  accountSubject
    (connectWallet_next connected_other live_other
       (run [account_changed live_other; call_connectWallet type_coinbase]
            (connectWallet_next connected_holder live_connected (fresh None)))) =
  JObj [("address", JStr holder); ("chainId", JNum 17000); ("isConnected", JBool true)].
Proof.
  apply (later_connect_publishes_earlier_record holder [] 17000 live_connected
           (fresh None) [account_changed live_other; call_connectWallet type_coinbase]
           connected_other live_other).
  reflexivity.
Defined.

End WalletInvariants.

(** ** The two drafts of the wallet service *)
Section Drafts.
Import Js WalletService WalletRuns Scenario.

Lemma channels_eq (s1 s2 : State) :
  WalletServiceDraft1.channels s1 = WalletServiceDraft1.channels s2 <->
  accountSubject s1 = accountSubject s2 /\
  chainIdSubject s1 = chainIdSubject s2 /\
  loadingSubject s1 = loadingSubject s2 /\
  errorSubject s1 = errorSubject s2.
Proof.
  unfold WalletServiceDraft1.channels. split.
  - intros H. injection H as Ha Hc Hl He. auto.
  - intros (-> & -> & -> & ->). reflexivity.
Qed.

(** On an event before the first stored session both drafts do the same to
    the channels, and the later draft still has no saved session. *)
Lemma drafts_agree_step (ev : Event) (s1 s2 : State) :
  WalletServiceDraft1.before_first_session ev = true ->
  has_savedState s1 = false ->
  WalletServiceDraft1.channels s1 = WalletServiceDraft1.channels s2 ->
  has_savedState (step ev s1) = false /\
  WalletServiceDraft1.channels (step ev s1) =
  WalletServiceDraft1.channels
    (match WalletServiceDraft1.step ev with Some f => f s2 | None => s2 end).
Proof.
  intros Hev Hnone Hch. apply channels_eq in Hch as (Ha & Hc & Hl & He).
  destruct ev as [t|result live|e| | |e| |result|e| |outcome|account|chainId];
    try discriminate; (split; [try exact Hnone; try reflexivity|]);
    try (apply channels_eq; simpl; repeat split; congruence).
  - destruct outcome; exact Hnone.
  - destruct outcome; apply channels_eq; simpl; repeat split; congruence.
Qed.

Lemma drafts_agree_run (events : list Event) :
  forall s1 s2,
    forallb WalletServiceDraft1.before_first_session events = true ->
    has_savedState s1 = false ->
    WalletServiceDraft1.channels s1 = WalletServiceDraft1.channels s2 ->
    has_savedState (run events s1) = false /\
    WalletServiceDraft1.channels (run events s1) =
    WalletServiceDraft1.channels (WalletServiceDraft1.run events s2).
Proof.
  induction events as [|ev events IH]; intros s1 s2 Hevents Hnone Hch.
  - split; assumption.
  - simpl in Hevents. apply andb_true_iff in Hevents as [Hev Hrest].
    destruct (drafts_agree_step ev s1 s2 Hev Hnone Hch) as [Hnone' Hch'].
    rewrite run_cons. unfold WalletServiceDraft1.run. simpl.
    apply (IH _ _ Hrest Hnone' Hch').
Qed.

(** X9.  Until a session is stored the later draft does to the four
    channels what the first draft does: constructed on a store without a
    saved session, and run through the same calls, settlements and watcher
    events, none of them a resolved connect or part of a reconnect, and then
    through a resolved connect, both drafts end with the same account, chain,
    loading and error subjects.  The first draft never writes the store. *)
Theorem later_draft_extends_first (saved : option StoredText)
        (live_account live_chain : JsVal) (events : list Event)
        (result : ConnectResult) (live : JsVal) :
  has_savedState (fresh saved) = false ->
  forallb WalletServiceDraft1.before_first_session events = true ->
  let run2 := run (events ++ [connect_resolved result live])
                  (construct saved live_account live_chain) in
  let run1 := WalletServiceDraft1.run (events ++ [connect_resolved result live])
                (WalletServiceDraft1.construct saved live_account live_chain) in
  WalletServiceDraft1.channels run2 = WalletServiceDraft1.channels run1 /\
  localStorage run1 = saved /\
  localStorage run2 = Some (JSON_stringify (connect_record result)).
Proof.
  intros Hnone Hevents run2 run1. subst run1 run2.
  assert (Hstart : construct saved live_account live_chain =
                   WalletServiceDraft1.construct saved live_account live_chain).
  { unfold construct, WalletServiceDraft1.construct, initialize,
      WalletServiceDraft1.initialize, andThen.
    now rewrite (updateAccount_live live_account (fresh saved) Hnone). }
  assert (Hnone0 : has_savedState (construct saved live_account live_chain) = false).
  { rewrite Hstart. exact Hnone. }
  destruct (drafts_agree_run events _
              (WalletServiceDraft1.construct saved live_account live_chain)
              Hevents Hnone0 (f_equal _ Hstart)) as [Hnone' Hch].
  rewrite run_snoc.
  unfold WalletServiceDraft1.run. rewrite fold_left_app. simpl.
  fold (WalletServiceDraft1.run events
          (WalletServiceDraft1.construct saved live_account live_chain)).
  apply channels_eq in Hch as (Ha & Hc & Hl & He).
  split; [|split].
  - apply channels_eq. unfold connectWallet_next, andThen.
    rewrite updateAccount_live by exact Hnone'.
    simpl. repeat split; congruence.
  - assert (Hrun1 : forall evs s, localStorage (WalletServiceDraft1.run evs s)
                                  = localStorage s).
    { induction evs as [|ev evs IH]; intros s; [reflexivity|].
      unfold WalletServiceDraft1.run in *. simpl. rewrite IH.
      destruct ev as [t|r l|e| | |e| |r|e| |outcome|account|chainId];
        try reflexivity.
      destruct outcome; reflexivity. }
    simpl. rewrite Hrun1. reflexivity.
  - reflexivity.
Qed.

Lemma later_draft_extends_first_witness :
  WalletServiceDraft1.channels
    (run ([call_connectWallet type_injected; connect_rejected user_rejected;
           call_connectWallet type_coinbase]
          ++ [connect_resolved connected_holder live_connected])
         (construct None live_disconnected live_disconnected)) =
  (live_connected, JNull, false, None).
Proof.
  rewrite (proj1 (later_draft_extends_first None live_disconnected live_disconnected
                    [call_connectWallet type_injected; connect_rejected user_rejected;
                     call_connectWallet type_coinbase]
                    connected_holder live_connected eq_refl eq_refl)).
  reflexivity.
Defined.

End Drafts.

(** ** More on the address pipe *)
Section AddressPipeFacts.
Import Js WalletAddressFormatPipe.

Lemma substring_whole (s : string) : substring 0 (String.length s) s = s.
Proof. induction s as [|c s IH]; simpl; [reflexivity | now rewrite IH]. Qed.

Lemma substring_app_head (p r : string) :
  substring 0 (String.length p) (p ++ r) = p.
Proof.
  induction p as [|c p IH]; simpl.
  - destruct r; reflexivity.
  - now rewrite IH.
Qed.

Lemma substring_app_tail (p r : string) (m : nat) :
  substring (String.length p) m (p ++ r) = substring 0 m r.
Proof. induction p as [|c p IH]; simpl; [reflexivity | exact IH]. Qed.

(** The pipe on a string of at least ten characters. *)
Lemma transform_long (value : string) :
  10 <= String.length value ->
  transform value =
  substring 0 6 value ++ "..." ++ substring (String.length value - 4) 4 value.
Proof.
  intros H. unfold transform.
  assert (Hcond : (value =? "") || (String.length value <? 10)%nat = false).
  { apply orb_false_iff. split.
    - apply String.eqb_neq. intros ->. simpl in H. lia.
    - apply Nat.ltb_ge. exact H. }
  rewrite Hcond, slice_first_six, slice_last_four by exact H. reflexivity.
Qed.

Lemma transform_short (value : string) :
  String.length value < 10 -> transform value = value.
Proof.
  intros H. unfold transform. apply Nat.ltb_lt in H.
  rewrite H, orb_true_r. reflexivity.
Qed.

Lemma transform_length (value : string) :
  String.length (transform value) =
  if (String.length value <? 10)%nat then String.length value else 13.
Proof.
  destruct (Nat.ltb_spec (String.length value) 10) as [Hshort|Hlong].
  - now rewrite transform_short.
  - rewrite transform_long, !length_append, !substring_length by lia.
    reflexivity.
Qed.

Example transform_fixed_point : transform "0x5290...9EE7" = "0x5290...9EE7".
Proof. reflexivity. Qed.

(** X10.  The pipe is idempotent: formatting an already formatted address
    changes nothing. *)
Theorem transform_idempotent (value : string) :
  transform (transform value) = transform value.
Proof.
  destruct (Nat.ltb_spec (String.length value) 10) as [Hshort|Hlong].
  - now rewrite !transform_short by (rewrite ?transform_short; assumption).
  - rewrite (transform_long value Hlong).
    set (p := substring 0 6 value).
    set (q := substring (String.length value - 4) 4 value).
    assert (Hp : String.length p = 6) by (apply substring_length; lia).
    assert (Hq : String.length q = 4) by (apply substring_length; lia).
    assert (Hlen : String.length (p ++ "..." ++ q) = 13).
    { rewrite !length_append, Hp, Hq. reflexivity. }
    rewrite (transform_long (p ++ "..." ++ q)) by lia.
    rewrite Hlen. f_equal; [|f_equal].
    + rewrite <- Hp at 1. apply substring_app_head.
    + change (13 - 4) with 9.
      replace (p ++ "..." ++ q) with ((p ++ "...") ++ q).
      * replace 9 with (String.length (p ++ "...")) by
          (rewrite length_append, Hp; reflexivity).
        rewrite substring_app_tail. rewrite <- Hq at 1. apply substring_whole.
      * clear. induction p as [|c p IH]; simpl; [reflexivity | now rewrite IH].
Qed.

(** X11.  The pipe makes a string shorter exactly when it has more than
    thirteen characters, and longer exactly when it has ten, eleven or twelve:
    there the three dots take more room than the characters they stand for.
    Its answer never has more than thirteen characters. *)
Theorem transform_length_compared (value : string) :
  let n := String.length value in
  let m := String.length (transform value) in
  (m < n <-> 13 < n) /\
  (n < m <-> 10 <= n <= 12) /\
  (m = n <-> n < 10 \/ n = 13) /\
  m <= 13.
Proof.
  intros n m. subst n m. rewrite transform_length.
  destruct (Nat.ltb_spec (String.length value) 10); lia.
Qed.

End AddressPipeFacts.

(** ** The modal service *)
Section Modal.
Import Js ModalService.

Example open_with_options :
  modalInstance (open (Some "crypto-modal") (Some page_options) initial) =
  Some {| serial := 0;
          element := "crypto-modal";
          modalOptions :=
            [("placement", JStr "center");
             ("backdrop", JStr "static");
             ("backdropClasses",
              JStr "bg-gray-900/50 dark:bg-gray-900/80 fixed inset-0 z-40");
             ("closable", JUndefined)] |}.
Proof. reflexivity. Qed.

Lemma modal_run_cons (ev : Event) (events : list Event) (s : State) :
  run (ev :: events) s = run events (step ev s).
Proof. reflexivity. Qed.


Lemma lookup_absent (k : string) (fields : ModalOptions) :
  ~ In k (map fst fields) -> lookup k fields = JUndefined.
Proof.
  induction fields as [|[k0 v0] fields IH]; simpl; intros H; [reflexivity|].
  destruct (String.eqb_spec k0 k) as [->|Hne]; [exfalso; auto | apply IH; auto].
Qed.



Lemma step_modal_invariant (ev : Event) (s : State) :
  modal_invariant s -> modal_invariant (step ev s).
Proof.
  unfold modal_invariant. intros H.
  destruct ev as [[modalElement|] options|]; simpl.
  - split; [reflexivity | eexists; reflexivity].
  - exact H.
  - unfold close. destruct (modalInstance s) as [modal|] eqn:Hmodal; simpl.
    + split; [apply H | eexists; reflexivity].
    + rewrite Hmodal. exact H.
Qed.

Lemma run_modal_invariant (events : list Event) :
  forall s, modal_invariant s -> modal_invariant (run events s).
Proof.
  induction events as [|ev events IH]; intros s Hs; [exact Hs|].
  rewrite modal_run_cons. apply IH. now apply step_modal_invariant.
Qed.

(** X13.  Whatever is called in whatever order, the modal service reports
    open only while the modal it holds is the one constructed last and
    showing it was the last thing done; when it reports closed it either
    never constructed a modal and did nothing at all, or hiding the modal it
    holds was the last thing done. *)
Theorem modal_service_invariant (events : list Event) :
  modal_invariant (run events initial).
Proof. apply run_modal_invariant. reflexivity. Qed.

(** X14.  Before an [open] finds its element nothing happens: a run of
    [close] calls and of [open] calls on ids that match no element leaves the
    service as constructed, with no modal, nothing emitted on the open
    subject and nothing shown or hidden. *)
Theorem nothing_before_first_modal (events : list Event) :
  forallb (fun ev => negb (opens ev)) events = true ->
  run events initial = initial.
Proof.
  induction events as [|ev events IH]; intros H; [reflexivity|].
  simpl in H. apply andb_true_iff in H as [Hev Hrest].
  rewrite modal_run_cons.
  destruct ev as [[modalElement|] options|]; try discriminate; simpl; auto.
Qed.

Lemma nothing_before_first_modal_witness :
  run [call_close; call_open None (Some page_options); call_close] initial = initial.
Proof. apply nothing_before_first_modal. reflexivity. Defined.

Lemma step_keeps_modal (ev : Event) (s : State) (n : nat) :
  n < constructed s ->
  (forall modal, modalInstance s = Some modal -> n < serial modal) ->
  n < constructed (step ev s) /\
  (forall modal, modalInstance (step ev s) = Some modal -> n < serial modal) /\
  hidden_times n (trace (step ev s)) = hidden_times n (trace s).
Proof.
  intros Hn Hcurrent.
  destruct ev as [[modalElement|] options|]; simpl.
  - split; [lia|]. split; [|reflexivity].
    intros modal Hmodal. injection Hmodal as <-. simpl. exact Hn.
  - auto.
  - unfold close. destruct (modalInstance s) as [modal|] eqn:Hmodal; simpl.
    + specialize (Hcurrent modal eq_refl).
      split; [exact Hn|]. split.
      * intros m Hm. injection Hm as <-. exact Hcurrent.
      * unfold hidden_times. simpl.
        destruct (Nat.eqb_spec (serial modal) n); [lia | reflexivity].
    + split; [exact Hn|]. split; [intros m Hm; congruence | reflexivity].
Qed.

(** X15.  A modal that a later [open] replaces is never hidden afterwards:
    [close] hides only the modal constructed last, so whatever is called after
    the replacing [open], the replaced modal is hidden no more often than it
    had been, even when it was showing when it was replaced. *)
Theorem replaced_modal_is_never_hidden
        (before after : list Event) (modal : ModalInterface)
        (modalElement : string) (options : option ModalOptions) :
  let s := run before initial in
  modalInstance s = Some modal ->
  let s' := run after (open (Some modalElement) options s) in
  hidden_times (serial modal) (trace s') = hidden_times (serial modal) (trace s).
Proof.
  intros s Hmodal s'.
  assert (Hinv : modal_invariant s) by (apply run_modal_invariant; reflexivity). unfold modal_invariant in Hinv. rewrite Hmodal in Hinv.
  destruct Hinv as [Hserial _].
  assert (Hrun : forall evs t,
             serial modal < constructed t ->
             (forall m, modalInstance t = Some m -> serial modal < serial m) ->
             hidden_times (serial modal) (trace (run evs t)) =
             hidden_times (serial modal) (trace t)).
  { induction evs as [|ev evs IH]; intros t Hn Hcur; [reflexivity|].
    rewrite modal_run_cons.
    destruct (step_keeps_modal ev t (serial modal) Hn Hcur) as (Hn' & Hcur' & Hhid).
    rewrite IH by assumption. exact Hhid. }
  subst s'. rewrite Hrun.
  - reflexivity.
  - simpl. lia.
  - simpl. intros m Hm. injection Hm as <-. simpl. lia.
Qed.

(** Opened twice, closed twice: the first modal, still showing, is never
    hidden. *)
Lemma replaced_modal_is_never_hidden_witness :
  hidden_times 0
    (trace (run [call_close; call_close]
                (open (Some "crypto-modal") None
                      (run [call_open (Some "crypto-modal") None] initial)))) = 0.
Proof.
  apply (replaced_modal_is_never_hidden
           [call_open (Some "crypto-modal") None] [call_close; call_close]
           {| serial := 0; element := "crypto-modal";
              modalOptions := default_options |}
           "crypto-modal" None).
  reflexivity.
Defined.

(** X16.  The service never lets go of a modal: once one is constructed,
    after any further calls there still is a current modal, and a [close]
    hides it and emits [false] on the open subject again, also when it was
    closed already. *)
Theorem close_always_hides_after_first_modal (events : list Event) (s : State)
        (modal : ModalInterface) :
  modalInstance s = Some modal ->
  exists current,
    modalInstance (run events s) = Some current /\
    trace (close (run events s)) =
      isOpen_next false :: hide (serial current) :: trace (run events s) /\
    isOpen (close (run events s)) = false.
Proof.
  revert s modal.
  induction events as [|ev events IH]; intros s modal Hmodal.
  - exists modal. unfold close, isOpen. simpl. rewrite Hmodal. repeat split.
  - rewrite modal_run_cons.
    destruct ev as [[modalElement|] options|]; simpl.
    + eapply IH. reflexivity.
    + eapply IH. exact Hmodal.
    + eapply IH. unfold close. rewrite Hmodal. simpl. reflexivity.
Qed.

Lemma close_always_hides_after_first_modal_witness :
  exists current,
    modalInstance (run [call_close] (open (Some "crypto-modal") None initial))
      = Some current /\
    trace (close (run [call_close] (open (Some "crypto-modal") None initial))) =
      isOpen_next false :: hide (serial current)
        :: trace (run [call_close] (open (Some "crypto-modal") None initial)) /\
    isOpen (close (run [call_close] (open (Some "crypto-modal") None initial))) = false.
Proof.
  apply (close_always_hides_after_first_modal [call_close]
           (open (Some "crypto-modal") None initial)
           {| serial := 0; element := "crypto-modal";
              modalOptions := default_options |}).
  reflexivity.
Defined.

End Modal.

(** ** The navigation bar *)
Section Navbar.
Import Js WalletService Scenario NavbarComponent.

Example navbar_on_holesky :
  on_account live_connected =
  Some {| isConnected := true; walletAddress := JStr holder; networkName := "Holesky" |}.
Proof. reflexivity. Qed.

Example navbar_on_undefined : on_account JUndefined = Some initial_view.
Proof. reflexivity. Qed.

Lemma networks_get_none (chainId : Z) (table : list (Z * string)) :
  networks_get chainId table = None <-> ~ In chainId (map fst table).
Proof.
  induction table as [|[id name] table IH]; simpl.
  - split; [intros _ [] | reflexivity].
  - destruct (Z.eqb_spec id chainId) as [->|Hne].
    + split; [discriminate | intros H; exfalso; auto].
    + rewrite IH. split; [intros H [Heq|Hin]; auto | intros H Hin; auto].
Qed.

Lemma networks_get_some (chainId : Z) (name : string) (table : list (Z * string)) :
  networks_get chainId table = Some name -> In (chainId, name) table.
Proof.
  induction table as [|[id name'] table IH]; simpl; [discriminate|].
  destruct (Z.eqb_spec id chainId) as [->|Hne].
  - intros H. injection H as ->. now left.
  - intros H. right. now apply IH.
Qed.

(** The name is the fallback exactly for the ids outside the table. *)
Lemma getNetworkName_unsupported (chainId : Z) :
  getNetworkName chainId = "Unsupported Network" <-> ~ In chainId (map fst networks).
Proof.
  rewrite <- networks_get_none. unfold getNetworkName.
  destruct (networks_get chainId networks) as [name|] eqn:Hget.
  - apply networks_get_some in Hget.
    split; [|discriminate].
    unfold networks in Hget. simpl in Hget.
    repeat (destruct Hget as [Hget|Hget];
            [injection Hget as _ <-; simpl; discriminate|]).
    destruct Hget.
  - split; reflexivity.
Qed.

(** X17.  The network button asks the wallet service for a switch to
    Holesky exactly when the last published account has a chain id that is
    not [undefined] and not one of the seven ids of the table (a number
    outside it, [null] or a boolean); for an account on a listed chain
    (Holesky, but also Mainnet, Ropsten, Rinkeby, Goerli, BSC and Polygon) and
    for an absent account or one without chain id it only logs, and no
    provider call is made. *)
Theorem network_button_switches_off_table (account : JsVal) (view : View) (s : State) :
  on_account account = Some view ->
  let clicked := onNetworkButtonClick view s in
  let off_table :=
    opt_prop account "chainId" = JNull \/
    (exists b, opt_prop account "chainId" = JBool b) \/
    (exists chainId, opt_prop account "chainId" = JNum chainId /\
                     ~ In chainId (map fst networks)) in
  (off_table ->
   clicked = switchNetwork_call s /\
   trace clicked = provider (switchChain 17000) :: trace s) /\
  (~ off_table ->
   clicked = emit (console_log "Network is already supported") s) /\
  (account = JUndefined -> view = initial_view /\ ~ off_table).
Proof.
  intros Hview clicked off_table. subst clicked off_table.
  unfold on_account in Hview. unfold onNetworkButtonClick.
  destruct (opt_prop account "chainId") as [| | b | chainId | | |] eqn:Hchain;
    try discriminate; injection Hview as <-; simpl.
  - split; [intros [H|[[b H]|(n & H & _)]]; discriminate|].
    split; [reflexivity|].
    intros ->. split; [reflexivity|].
    intros [H|[[b H]|(n & H & _)]]; discriminate.
  - split; [intros _; split; reflexivity|].
    split; [intros Hnot; exfalso; apply Hnot; now left | intros ->; discriminate].
  - split; [intros _; split; reflexivity|].
    split; [intros Hnot; exfalso; apply Hnot; right; left; now exists b
           | intros ->; discriminate].
  - destruct (String.eqb_spec (getNetworkName chainId) "Unsupported Network")
      as [Hname|Hname].
    + split; [intros _; split; reflexivity|].
      split.
      * intros Hnot. exfalso. apply Hnot. right. right.
        exists chainId. split; [reflexivity|].
        now apply getNetworkName_unsupported.
      * intros ->. discriminate.
    + split.
      * intros [H|[[b H]|(n & Hn & Hoff)]]; try discriminate.
        injection Hn as <-.
        apply getNetworkName_unsupported in Hoff. contradiction.
      * split; [reflexivity | intros ->; discriminate].
Qed.

Lemma network_button_switches_off_table_witness :
  trace (onNetworkButtonClick
           {| isConnected := true; walletAddress := JStr holder;
              networkName := "Unsupported Network" |}
           (fresh None)) = [provider (switchChain 17000)].
Proof.
  apply (proj1 (network_button_switches_off_table
                  (JObj [("address", JStr holder); ("chainId", JNum 11155111);
                         ("isConnected", JBool true)])
                  _ (fresh None) eq_refl)).
  right. right. exists 11155111%Z. split; [reflexivity|].
  simpl. intros H. repeat (destruct H as [H|H]; [discriminate|]). exact H.
Defined.

End Navbar.

(** ** The stored record and the values on the error subject and in toasts *)
Section StoredRecord.
Import Js WalletService WalletRuns Scenario Spec.

Lemma truthy_json_image (v : JsVal) : truthy (json_image v) = truthy v.
Proof. destruct v; reflexivity. Qed.

(** The three properties of the record that [saveConnectionState] stores. *)
Lemma saved_record_props (address chainId isConnected : JsVal) (s : State) :
  exists record,
    localStorage (saveConnectionState address chainId isConnected s)
      = Some (JsonText record) /\
    opt_prop record "address" = json_image address /\
    opt_prop record "chainId" = json_image chainId /\
    opt_prop record "isConnected" = json_image isConnected.
Proof.
  eexists. split; [reflexivity|].
  destruct address, chainId, isConnected; repeat split.
Qed.

(** X18.  What [saveConnectionState] stores reads back, at the next page
    load, as an account whose [address], [chainId] and [isConnected] are the
    JSON images of the three values saved; a value saved as [undefined] is
    left out of the record and reads back as [undefined]. *)
Theorem saved_state_reads_back (address chainId isConnected : JsVal) (s : State)
        (live_account live_chain : JsVal) :
  let saved := saveConnectionState address chainId isConnected s in
  let reloaded := construct (localStorage saved) live_account live_chain in
  opt_prop (accountSubject reloaded) "address" = json_image address /\
  opt_prop (accountSubject reloaded) "chainId" = json_image chainId /\
  opt_prop (accountSubject reloaded) "isConnected" = json_image isConnected /\
  (address = JUndefined -> opt_prop (accountSubject reloaded) "address" = JUndefined) /\
  has_savedState saved = true.
Proof.
  intros saved reloaded. subst saved reloaded.
  destruct (saved_record_props address chainId isConnected s)
    as (record & Hstore & Ha & Hc & Hi).
  rewrite Hstore. simpl accountSubject.
  split; [exact Ha|]. split; [exact Hc|]. split; [exact Hi|].
  split; [intros ->; exact Ha | reflexivity].
Qed.

(** X19.  After a reconnect resolves, the next page load publishes an
    account that counts as connected exactly when the answer of [reconnect]
    had a truthy [isConnected]; when it had none, as an array of connections
    has none, the account published says [isConnected] false, and that page
    load starts a reconnect again. *)
Theorem reconnect_then_reload (result : ReconnectResult) (s : State)
        (live_account live_chain : JsVal) :
  let reloaded :=
    construct (localStorage (reconnectWallet_resolved result s))
              live_account live_chain in
  connected (accountSubject reloaded) = truthy (lookup "isConnected" result) /\
  (truthy (lookup "isConnected" result) = false ->
   opt_prop (accountSubject reloaded) "isConnected" = JBool false) /\
  opt_prop (accountSubject reloaded) "address" = json_image (lookup "account" result) /\
  loadingSubject reloaded = true.
Proof.
  intros reloaded. subst reloaded.
  unfold reconnectWallet_resolved, andThen.
  destruct (saved_record_props (lookup "account" result) (lookup "chainId" result)
              (or_ (lookup "isConnected" result) (JBool false))
              (emit (console_log "Reconnected wallet:") s))
    as (record & Hstore & Ha & _ & Hi).
  change (localStorage (loadingSubject_next false ?x)) with (localStorage x).
  rewrite Hstore. simpl accountSubject. unfold connected.
  rewrite Hi, truthy_json_image. unfold or_.
  destruct (truthy (lookup "isConnected" result)) eqn:Htruthy.
  - split; [exact Htruthy|]. split; [discriminate|]. split; [exact Ha | reflexivity].
  - split; [reflexivity|]. split; [reflexivity|]. split; [exact Ha | reflexivity].
Qed.

Lemma updateAccount_error_is_Error_or_null (live : JsVal) (s : State) :
  is_Error_or_null (errorSubject s) ->
  is_Error_or_null (errorSubject (updateAccount live s)).
Proof.
  intros H. unfold updateAccount.
  destruct (localStorage s) as [[data|text]|]; simpl;
    [| destruct (text =? "") |]; simpl; auto.
Qed.

Lemma step_error_is_Error_or_null (ev : Event) (s : State) :
  is_Error_or_null (errorSubject s) -> is_Error_or_null (errorSubject (step ev s)).
Proof.
  intros H.
  destruct ev as [t|result live|e| | |e| |result|e| |outcome|account|chainId];
    simpl; try exact I; try exact H;
    try (destruct (instanceof_Error e) eqn:He; simpl; [exact He | exact I]).
  - unfold andThen. apply updateAccount_error_is_Error_or_null. exact H.
  - destruct outcome as [r|e]; simpl; [exact H|].
    destruct (instanceof_Error e) eqn:He; simpl; [exact He | exact I].
Qed.

(** X20.  Whatever the promises reject with, the error subject of a
    constructed service carries, after any run, [null] or an [Error]: a
    rejected value is published as it is only when it is an [Error], and as a
    new [Error] of the resolved message otherwise. *)
Theorem error_subject_carries_errors (events : list Event)
        (saved : option StoredText) (live_account live_chain : JsVal) :
  is_Error_or_null
    (errorSubject (run events (construct saved live_account live_chain))).
Proof.
  assert (Hrun : forall evs s, is_Error_or_null (errorSubject s) ->
                               is_Error_or_null (errorSubject (run evs s))).
  { induction evs as [|ev evs IH]; intros s Hs; [exact Hs|].
    rewrite run_cons. apply IH. now apply step_error_is_Error_or_null. }
  apply Hrun.
  unfold construct, initialize, andThen, updateAccount. simpl.
  destruct saved as [[data|text]|]; simpl; [| destruct (text =? "") |]; exact I.
Qed.

Lemma errorMessage_truthy (error : Thrown) : truthy (errorMessage_of error) = true.
Proof.
  unfold errorMessage_of.
  destruct (strict_eq_str _ _); [reflexivity|].
  destruct (truthy (opt_prop (thrown_value error) "message")) eqn:H;
    [exact H | reflexivity].
Qed.

(** X21.  No toast is empty: along any run of a constructed service every
    toast has a truthy message (a non-empty one when it is a string) and the
    title "Connection Failed". *)
Theorem toasts_are_never_empty (events : list Event)
        (saved : option StoredText) (live_account live_chain : JsVal) :
  Forall (fun toast => truthy (fst toast) = true /\ snd toast = "Connection Failed")
         (toasts (trace (run events (construct saved live_account live_chain)))).
Proof.
  assert (Hrun : forall evs s,
             Forall (fun toast => truthy (fst toast) = true /\
                                  snd toast = "Connection Failed")
                    (toasts (trace s)) ->
             Forall (fun toast => truthy (fst toast) = true /\
                                  snd toast = "Connection Failed")
                    (toasts (trace (run evs s)))).
  { induction evs as [|ev evs IH]; intros s Hs; [exact Hs|].
    rewrite run_cons. apply IH. rewrite step_toasts.
    apply Forall_app. split; [|exact Hs].
    unfold toast_of. destruct (rejection_error ev); constructor; [|constructor].
    split; [apply errorMessage_truthy | reflexivity]. }
  apply Hrun.
  unfold construct, initialize, andThen. simpl.
  rewrite updateAccount_toasts. constructor.
Qed.

End StoredRecord.
